(** * recode-video: the stream policy of [handle_file]

    A shallow embedding of [src/recode_video/recode_video.py].  The
    function [handle_file] probes a media file, classifies every stream,
    builds the list of output streams, compiles it to ffmpeg arguments and
    replaces the file.  The pure part (classification, sort, argument
    compilation) is embedded as functions into an error type; the
    imperative part (probe, temporary file, ffmpeg, move, unlink) runs in a
    state-and-error monad over a small model of the file system. *)

From Stdlib Require Import String Ascii List ZArith Bool Arith Lia.
From Stdlib Require Import DecimalString Sorted Permutation.
Import ListNotations.
Open Scope string_scope.
Open Scope list_scope.

Set Implicit Arguments.

(* ================================================================= *)
(** ** Data *)

(** One entry of [video_info["streams"]], the ffprobe JSON document.  The
    program reads three keys of it: [codec_type], [codec_name] and
    [disposition.default]; the model takes documents that carry all three
    (a missing key is a KeyError in the program). *)
Record Stream := mkStream {
  codec_type : string;
  codec_name : string;
  disposition_default : Z
}.

(** The dataclass [OutputStream]. *)
Record OutputStream := mkOutputStream {
  input_index : nat;
  options : list string
}.

(** The exceptions the program can raise, one constructor per [raise] site
    (and per library call that raises). *)
Inductive Error : Type :=
| NoVideoStream                                   (* line 87, ValueError *)
| UnhandledVideoCodec (stream : Stream)           (* line 137, Exception *)
| UnhandledSubtitles (subtitle_codecs : list string) (* line 255, ValueError *)
| UnknownDataCodec (codec : string)               (* line 272, ValueError *)
| UnknownStreamType (ty : string)                 (* line 275, ValueError *)
| ProbeFailure (stderr : string)                  (* line 28, Exception *)
| FormatError (opt : string)                      (* str.format raising *)
| CalledProcessError (returncode : Z)             (* subprocess.run, check=True *)
| FileNotFound (path : string)                    (* shutil.move, Path.unlink *)
| DestinationExists (path : string)               (* shutil.Error of shutil.move *)
| IsADirectory (path : string).                   (* Path.unlink on a directory *)

Inductive result (A : Type) : Type :=
| Ok (a : A)
| Err (e : Error).
Arguments Ok {A} a.
Arguments Err {A} e.

Definition rbind {A B} (r : result A) (k : A -> result B) : result B :=
  match r with
  | Ok a => k a
  | Err e => Err e
  end.

(* ================================================================= *)
(** ** Python primitives used by the classification *)

(** [x in {...}] and [x in [...]] on strings. *)
Definition str_in (x : string) (l : list string) : bool :=
  existsb (String.eqb x) l.

(** [a == b] on lists of strings. *)
Definition list_eqb (a b : list string) : bool :=
  if list_eq_dec string_dec a b then true else false.

(** [set(a).issubset(b)]. *)
Definition issubset (a b : list string) : bool :=
  forallb (fun x => str_in x b) a.

(** A stable insertion sort; [list.sort] and [sorted] are stable, and a
    stable sort has one possible result. *)
Section StableSort.
Variable A : Type.
Variable le : A -> A -> bool.

Fixpoint insert_sorted (x : A) (l : list A) : list A :=
  match l with
  | [] => [x]
  | y :: l' => if le x y then x :: l else y :: insert_sorted x l'
  end.

Fixpoint stable_sort (l : list A) : list A :=
  match l with
  | [] => []
  | x :: l' => insert_sorted x (stable_sort l')
  end.
End StableSort.

(** [sorted(subtitle_codecs)]: strings compare by code point. *)
Definition sorted (l : list string) : list string :=
  stable_sort String.leb l.

(** [x in [l1, l2]] on lists of strings. *)
Definition list_in (x : list string) (ls : list (list string)) : bool :=
  existsb (list_eqb x) ls.

(** [output_streams.sort(key=lambda x: x.input_index)]. *)
Definition sort_by_input_index (l : list OutputStream) : list OutputStream :=
  stable_sort (fun a b => (input_index a <=? input_index b)%nat) l.

(* ================================================================= *)
(** ** Classification: the body of the loop of [handle_file] *)

(** Names for the option lists that the loop below writes out in full
    (lines 113-122, 129-132, 155-160, 179-184 and 206-215); the lemmas
    use the names. *)
Definition opts_libx264 : list string :=
  [ "-c:{output_index}"; "libx264";
    "-crf:{output_index}"; "20";
    "-preset:{output_index}"; "medium";
    "-disposition:{output_index}"; "+default" ].

Definition opts_copy : list string :=
  [ "-c:{output_index}"; "copy" ].

Definition opts_srt : list string :=
  [ "-c:{output_index}"; "srt";
    "-disposition:{output_index}"; "+default" ].

Definition opts_copy_disposition (flag : string) : list string :=
  [ "-c:{output_index}"; "copy";
    "-disposition:{output_index}"; flag ].

(** One iteration of [for stream_index, stream in enumerate(streams)]
    (lines 105-275).  The two accumulators [needs_run] and
    [output_streams] are threaded as a pair; [append] adds at the end. *)
Definition classify_stream
    (subtitle_codecs default_subtitle_codecs : list string)
    (stream_index : nat) (stream : Stream)
    (st : bool * list OutputStream) : result (bool * list OutputStream) :=
  let '(needs_run, output_streams) := st in
  if codec_type stream =? "video" then
    if str_in (codec_name stream) ["vc1"; "hevc"; "vp9"; "av1"] then
      Ok (true,
          output_streams ++
            [mkOutputStream stream_index
               [ "-c:{output_index}"; "libx264";
                 "-crf:{output_index}"; "20";
                 "-preset:{output_index}"; "medium";
                 "-disposition:{output_index}"; "+default" ]])
    else if str_in (codec_name stream) ["h264"; "mjpeg"; "png"] then
      Ok (needs_run,
          output_streams ++
            [mkOutputStream stream_index ["-c:{output_index}"; "copy"]])
    else Err (UnhandledVideoCodec stream)
  else if codec_type stream =? "audio" then
    Ok (needs_run,
        output_streams ++
          [mkOutputStream stream_index ["-c:{output_index}"; "copy"]])
  else if codec_type stream =? "subtitle" then
    if codec_name stream =? "mov_text" then
      Ok (true,
          output_streams ++
            [mkOutputStream stream_index
               [ "-c:{output_index}"; "srt";
                 "-disposition:{output_index}"; "+default" ]])
    else if list_eqb subtitle_codecs ["webvtt"]
            || list_eqb subtitle_codecs ["ass"] then
      Ok (true,
          (output_streams ++
             [mkOutputStream stream_index
                [ "-c:{output_index}"; "srt";
                  "-disposition:{output_index}"; "+default" ]])
            ++ [mkOutputStream stream_index
                  [ "-c:{output_index}"; "copy";
                    "-disposition:{output_index}"; "-default" ]])
    else if (list_eqb subtitle_codecs ["webvtt"; "subrip"]
             && list_eqb default_subtitle_codecs ["webvtt"])
            || (list_eqb subtitle_codecs ["ass"; "subrip"]
                && list_eqb default_subtitle_codecs ["ass"]) then
      Ok (true,
          output_streams ++
            [mkOutputStream stream_index
               [ "-c:{output_index}"; "copy";
                 "-disposition:{output_index}";
                 if codec_name stream =? "subrip"
                 then "+default" else "-default" ]])
    else if (list_in (sorted subtitle_codecs)
               [["subrip"; "webvtt"]; ["ass"; "subrip"]]
             || list_eqb subtitle_codecs ["subrip"])
            && list_eqb default_subtitle_codecs ["subrip"] then
      Ok (needs_run,
          output_streams ++
            [mkOutputStream stream_index ["-c:{output_index}"; "copy"]])
    else if issubset subtitle_codecs ["subrip"; "hdmv_pgs_subtitle"] then
      Ok (needs_run,
          output_streams ++
            [mkOutputStream stream_index ["-c:{output_index}"; "copy"]])
    else Err (UnhandledSubtitles subtitle_codecs)
  else if codec_type stream =? "attachment" then
    Ok (needs_run,
        output_streams ++
          [mkOutputStream stream_index ["-c:{output_index}"; "copy"]])
  else if codec_type stream =? "data" then
    if codec_name stream =? "bin_data" then
      Ok (true, output_streams)
    else Err (UnknownDataCodec (codec_name stream))
  else Err (UnknownStreamType (codec_type stream)).

(** The loop itself: [enumerate] counts from [stream_index]. *)
Fixpoint classify_loop
    (subtitle_codecs default_subtitle_codecs : list string)
    (stream_index : nat) (streams : list Stream)
    (st : bool * list OutputStream) : result (bool * list OutputStream) :=
  match streams with
  | [] => Ok st
  | stream :: rest =>
      rbind (classify_stream subtitle_codecs default_subtitle_codecs
               stream_index stream st)
            (classify_loop subtitle_codecs default_subtitle_codecs
               (S stream_index) rest)
  end.

Definition is_video (stream : Stream) : bool :=
  codec_type stream =? "video".
Definition is_subtitle (stream : Stream) : bool :=
  codec_type stream =? "subtitle".
Definition is_default (stream : Stream) : bool :=
  (disposition_default stream =? 1)%Z.

(** Lines 89-92. *)
Definition subtitle_codecs_of (streams : list Stream) : list string :=
  map codec_name (filter is_subtitle streams).

(** Lines 93-100. *)
Definition default_subtitle_codecs_of (streams : list Stream) : list string :=
  map codec_name (filter is_default (filter is_subtitle streams)).

(** Lines 82-275 of [handle_file]: the video check, the file-level codec
    lists, then the loop from [needs_run = False], [output_streams = []]. *)
Definition classify (streams : list Stream)
  : result (bool * list OutputStream) :=
  let video_streams := filter is_video streams in
  if (length video_streams =? 0)%nat then Err NoVideoStream
  else
    classify_loop (subtitle_codecs_of streams)
                  (default_subtitle_codecs_of streams)
                  0 streams (false, []).

(** Lines 82-280: [None] is the [return] of line 278 (nothing to do),
    [Some plan] the sorted [output_streams] after line 280. *)
Definition evaluate (streams : list Stream)
  : result (option (list OutputStream)) :=
  rbind (classify streams) (fun '(needs_run, output_streams) =>
    if negb needs_run then Ok None
    else Ok (Some (sort_by_input_index output_streams))).

(* ================================================================= *)
(** ** Argument compilation (lines 281-289) *)

(** [str(n)] for a non-negative integer. *)
Definition str_of_nat (n : nat) : string :=
  NilEmpty.string_of_uint (Nat.to_uint n).

Definition field_stop (c : ascii) : bool :=
  existsb (Ascii.eqb c) ["{"; "!"; ":"; "."; "["]%char.

(** [s.format(output_index=value)], scanned left to right.  [field] is
    [Some name] while the scan is inside a replacement field [{name}].
    The model covers literal text, the escapes [{{] and [}}] and plain
    named fields; the one keyword passed is [output_index], so any other
    field raises ([None]), as does an unbalanced brace.  Conversions,
    format specs and attribute or index access inside a field are
    outside the model and also give [None]. *)
Fixpoint format_scan (value : string) (s : string) (field : option string)
  : option string :=
  match s with
  | EmptyString =>
      match field with
      | None => Some EmptyString
      | Some _ => None
      end
  | String c rest =>
      match field with
      | Some name =>
          if Ascii.eqb c "}" then
            if name =? "output_index" then
              option_map (String.append value) (format_scan value rest None)
            else None
          else if field_stop c then None
          else format_scan value rest (Some (name ++ String c ""))%string
      | None =>
          if Ascii.eqb c "{" then
            match rest with
            | String "{"%char rest' =>
                option_map (String "{") (format_scan value rest' None)
            | _ => format_scan value rest (Some "")
            end
          else if Ascii.eqb c "}" then
            match rest with
            | String "}"%char rest' =>
                option_map (String "}") (format_scan value rest' None)
            | _ => None
            end
          else option_map (String c) (format_scan value rest None)
      end
  end.

(** [opt.format(output_index=i)]. *)
Definition format_output_index (opt : string) (i : nat) : result string :=
  match format_scan (str_of_nat i) opt None with
  | Some s => Ok s
  | None => Err (FormatError opt)
  end.

(** [opt.format(output_index=i) for opt in stream.options]. *)
Fixpoint format_options (opts : list string) (i : nat)
  : result (list string) :=
  match opts with
  | [] => Ok []
  | opt :: rest =>
      rbind (format_output_index opt i) (fun s =>
      rbind (format_options rest i) (fun ss => Ok (s :: ss)))
  end.

(** The loop of lines 286-289; [enumerate] counts from [i]. *)
Fixpoint map_loop (i : nat) (output_streams : list OutputStream)
    (ffmpeg_args : list string) : result (list string) :=
  match output_streams with
  | [] => Ok ffmpeg_args
  | stream :: rest =>
      let ffmpeg_args := ffmpeg_args ++ ["-map"] in
      let ffmpeg_args :=
        ffmpeg_args ++ [("0:" ++ str_of_nat (input_index stream))%string] in
      rbind (format_options (options stream) i) (fun opts =>
      map_loop (S i) rest (ffmpeg_args ++ opts))
  end.

(** Lines 281-289: the argument list starts with [-i in_path]. *)
Definition build_ffmpeg_args (in_path : string)
    (output_streams : list OutputStream) : result (list string) :=
  map_loop 0 output_streams ["-i"; in_path].

(* ================================================================= *)
(** ** The file system and the external tools *)

(** A path, split at its suffix as [pathlib] does:
    [path = stem ++ suffix], where [suffix] is empty or starts at the
    last dot of the file name. *)
Record Path := mkPath {
  stem : string;
  suffix : string
}.

Definition with_suffix (p : Path) (s : string) : Path :=
  mkPath (stem p) s.

Definition path_str (p : Path) : string :=
  (stem p ++ suffix p)%string.

Definition path_eqb (p q : Path) : bool :=
  (stem p =? stem q) && (suffix p =? suffix q).

(** The components of a path string, cut at the slashes.  [pathlib]'s
    [parts] shows the root as ["/"] where this list starts with the empty
    string; the program only asks whether a directory name is among
    them. *)
Fixpoint split_slash (s cur : string) : list string :=
  match s with
  | EmptyString => [cur]
  | String c rest =>
      if Ascii.eqb c "/" then cur :: split_slash rest ""
      else split_slash rest (cur ++ String c "")%string
  end.

(** [os.path.join(dst, _basename(src))] for a [dst] that does not end in
    a slash: the path of [src]'s file name inside the directory [dst]. *)
Definition path_inside (dst src : Path) : Path :=
  mkPath (path_str dst ++ "/" ++ last (split_slash (stem src) "") "")%string
         (suffix src).

(** What stands at a path: a file with its content, or a directory. *)
Definition Content := string.

Inductive Node : Type :=
| File (content : Content)
| Directory.

(** The disk, keyed by resolved paths. *)
Definition FileSystem := Path -> option Node.

Definition fs_write (fs : FileSystem) (p : Path) (c : option Node)
  : FileSystem :=
  fun q => if path_eqb q p then c else fs q.

(** What the program does to the outside, in order. *)
Inductive Event : Type :=
| EvProbe (path : Path)
| EvMkTemp (path : Path)
| EvFfmpeg (argv : list string)
| EvMove (src dst : Path)
| EvUnlink (path : Path).

Record World := mkWorld {
  fs : FileSystem;
  log : list Event
}.

(** The [CompletedProcess] of ffprobe: [stdout] already parsed down to
    its ["streams"] list. *)
Record ProbeResult := mkProbeResult {
  probe_returncode : Z;
  probe_streams : list Stream;
  probe_stderr : string
}.

(** The external collaborators: ffprobe, ffmpeg (its exit code and what
    it leaves in the output file), the resolved path of the file that
    [tempfile] makes (line 292), and [Path.resolve()], which reads the
    working directory and the symbolic links of the disk. *)
Record Env := mkEnv {
  ffprobe : Path -> FileSystem -> ProbeResult;
  ffmpeg : list string -> FileSystem -> Z * Content;
  mktemp : FileSystem -> Path;
  resolve : Path -> FileSystem -> Path
}.

(** State and exceptions: an exception keeps the effects done so far. *)
Definition M (A : Type) : Type := World -> result A * World.

Definition ret {A} (a : A) : M A := fun w => (Ok a, w).
Definition raise {A} (e : Error) : M A := fun w => (Err e, w).
Definition bind {A B} (m : M A) (k : A -> M B) : M B :=
  fun w =>
    match m w with
    | (Ok a, w') => k a w'
    | (Err e, w') => (Err e, w')
    end.
Definition lift {A} (r : result A) : M A := fun w => (r, w).
Definition emit (e : Event) : M unit :=
  fun w => (Ok tt, mkWorld (fs w) (log w ++ [e])).

Notation "x <- m ;; k" := (bind m (fun x => k))
  (at level 61, m at next level, right associativity).
Notation "m ;;; k" := (bind m (fun _ => k))
  (at level 61, right associativity).

(** [get_video_info] (lines 12-28). *)
Definition get_video_info (env : Env) (video_path : Path)
  : M (list Stream) :=
  emit (EvProbe video_path) ;;;
  fun w =>
    let result := ffprobe env video_path (fs w) in
    if (probe_returncode result =? 0)%Z
    then (Ok (probe_streams result), w)
    else (Err (ProbeFailure (probe_stderr result)), w).

(** [tempfile.NamedTemporaryFile(suffix=".mkv", delete=False)]: a new,
    empty file that stays on disk when the block is left. *)
Definition named_temporary_file (env : Env) : M Path :=
  fun w =>
    let temp_path := mktemp env (fs w) in
    (Ok temp_path,
     mkWorld (fs_write (fs w) temp_path (Some (File "")))
             (log w ++ [EvMkTemp temp_path])).

(** [subprocess.run([...], check=True)] on ffmpeg, whose last argument
    is the output file. *)
Definition run_ffmpeg (env : Env) (argv : list string) (temp_path : Path)
  : M unit :=
  fun w =>
    let '(returncode, out) := ffmpeg env argv (fs w) in
    let w' := mkWorld (fs_write (fs w) temp_path (Some (File out)))
                      (log w ++ [EvFfmpeg argv]) in
    if (returncode =? 0)%Z then (Ok tt, w')
    else (Err (CalledProcessError returncode), w').

(** [os.rename(src, real_dst)] as [shutil.move] uses it on a file: the
    file takes the place of whatever file stands at [real_dst]. *)
Definition rename (src real_dst : Path) : M unit :=
  fun w =>
    match fs w src with
    | None => (Err (FileNotFound (path_str src)), w)
    | Some c =>
        let fs' :=
          if path_eqb src real_dst then fs w
          else fs_write (fs_write (fs w) real_dst (Some c)) src None in
        (Ok tt, mkWorld fs' (log w ++ [EvMove src real_dst]))
    end.

(** [shutil.move(src, dst)] of a file (shutil.py): when a directory
    stands at [dst] the file goes inside it under its own name, unless
    something stands there already; otherwise it is renamed to [dst].
    The log keeps the path the file really went to. *)
Definition shutil_move (src dst : Path) : M unit :=
  fun w =>
    match fs w dst with
    | Some Directory =>
        if path_eqb src dst then rename src dst w
        else
          let real_dst := path_inside dst src in
          match fs w real_dst with
          | Some _ => (Err (DestinationExists (path_str real_dst)), w)
          | None => rename src real_dst w
          end
    | _ => rename src dst w
    end.

(** [path.exists()]. *)
Definition path_exists (p : Path) : M bool :=
  fun w =>
    (Ok match fs w p with Some _ => true | None => false end, w).

(** [path.unlink()]. *)
Definition unlink (p : Path) : M unit :=
  fun w =>
    match fs w p with
    | None => (Err (FileNotFound (path_str p)), w)
    | Some Directory => (Err (IsADirectory (path_str p)), w)
    | Some (File _) =>
        (Ok tt, mkWorld (fs_write (fs w) p None) (log w ++ [EvUnlink p]))
    end.

(** Lines 291-310: the transform step. *)
Definition transform (env : Env) (in_path out_path : Path)
    (ffmpeg_args : list string) : M unit :=
  temp_path <- named_temporary_file env ;;
  run_ffmpeg env
    (["ffmpeg"; "-threads"; "16"; "-y"] ++ ffmpeg_args
       ++ ["-f"; "matroska"; path_str temp_path])
    temp_path ;;;
  shutil_move temp_path out_path ;;;
  if negb (path_eqb in_path out_path) then
    out_exists <- path_exists out_path ;;
    if out_exists then unlink in_path else ret tt
  else ret tt.

(** [file.resolve()]. *)
Definition path_resolve (env : Env) (file : Path) : M Path :=
  fun w => (Ok (resolve env file (fs w)), w).

(** [handle_file] (lines 75-310). *)
Definition handle_file (env : Env) (file : Path) : M unit :=
  in_path <- path_resolve env file ;;
  let out_path := with_suffix in_path ".mkv" in
  streams <- get_video_info env in_path ;;
  plan <- lift (evaluate streams) ;;
  match plan with
  | None => ret tt
  | Some output_streams =>
      ffmpeg_args <-
        lift (build_ffmpeg_args (path_str in_path) output_streams) ;;
      transform env in_path out_path ffmpeg_args
  end.

(* ================================================================= *)
(** ** Reading an [OutputStream] back *)

(** The token that follows [key] in an option list, if any. *)
Fixpoint option_value (key : string) (opts : list string) : option string :=
  match opts with
  | k :: ((v :: _) as rest) =>
      if k =? key then Some v else option_value key rest
  | _ => None
  end.

(** The encoder of an entry: [copy], [libx264] or [srt]. *)
Definition encoder (o : OutputStream) : option string :=
  option_value "-c:{output_index}" (options o).

(** The default-flag change of an entry: [+default] sets it, [-default]
    clears it, no [-disposition] option leaves it as it is. *)
Definition disposition (o : OutputStream) : option string :=
  option_value "-disposition:{output_index}" (options o).

(* ================================================================= *)
(** ** Definitions for the statements and the proofs *)

(** The world after the probe alone. *)
Definition probed (file : Path) (w : World) : World :=
  mkWorld (fs w) (log w ++ [EvProbe file]).

(** What one stream contributes, seen from empty accumulators: whether it
    forces a run and the entries it appends. *)
Definition fragment (sc dc : list string) (i : nat) (s : Stream)
  : result (bool * list OutputStream) :=
  classify_stream sc dc i s (false, []).

(** [s.startswith(p)]. *)
Fixpoint starts_with (p s : string) : bool :=
  match p with
  | EmptyString => true
  | String a p' =>
      match s with
      | EmptyString => false
      | String b s' => Ascii.eqb a b && starts_with p' s'
      end
  end.

(** The substitution as the specification words it: every occurrence of
    the placeholder [{output_index}] in a token is replaced by [value];
    the rest of the token is kept.  [skip] counts the characters of a
    placeholder still to pass over. *)
Fixpoint substitute_from (value : string) (skip : nat) (s : string)
  : string :=
  match s with
  | EmptyString => EmptyString
  | String c rest =>
      match skip with
      | S k => substitute_from value k rest
      | O =>
          if starts_with "{output_index}" s
          then (value ++ substitute_from value 13 rest)%string
          else String c (substitute_from value 0 rest)
      end
  end.

Definition substitute_placeholder (value : string) (s : string) : string :=
  substitute_from value 0 s.

(** The tokens of the entry at position [k] of the plan: the stream
    selection by source index, then the options with the placeholder
    replaced by [k]. *)
Definition entry_tokens (k : nat) (entry : OutputStream) : list string :=
  "-map" :: ("0:" ++ str_of_nat (input_index entry))%string
    :: map (substitute_placeholder (str_of_nat k)) (options entry).

(** Option strings whose only braces are those of the placeholder. *)
Inductive plain_template : string -> Prop :=
| pt_nil : plain_template ""
| pt_char (c : ascii) (s : string) :
    c <> "{"%char -> c <> "}"%char -> plain_template s ->
    plain_template (String c s)
| pt_hole (s : string) :
    plain_template s -> plain_template ("{output_index}" ++ s)%string.

Definition plain_entry (o : OutputStream) : Prop :=
  Forall plain_template (options o).


(** The stream set that ffmpeg writes for a plan is not computed anywhere
    in the repository.  The four definitions below model it from the words
    of the specification (sections 4.1, 4.2 and 8): an entry encoded with
    libx264 gives an h264 stream, an entry converted with srt gives a
    subrip stream, a copied entry keeps its codec; [+default] sets the
    default disposition, [-default] clears it, no disposition option
    keeps it; a stream without an entry (a dropped data stream) is
    absent. *)

(** Modelled from the spec: the codec of the stream written for entry
    [o] of source stream [source] (ffmpeg's output, not in the
    repository): transcoded video is h264, a converted subtitle is
    subrip, a copy keeps the codec. *)
Definition output_codec_name (source : Stream) (o : OutputStream) : string :=
  match encoder o with
  | Some enc =>
      if enc =? "libx264" then "h264"
      else if enc =? "srt" then "subrip"
      else codec_name source
  | None => codec_name source
  end.

(** Modelled from the spec: the default disposition of the stream
    written for entry [o] (ffmpeg's output, not in the repository): set,
    cleared, or as it was. *)
Definition output_default (source : Stream) (o : OutputStream) : Z :=
  match disposition o with
  | Some flag =>
      if flag =? "+default" then 1%Z
      else if flag =? "-default" then 0%Z
      else disposition_default source
  | None => disposition_default source
  end.

(** Modelled from the spec: the stream written for entry [o] of source
    stream [source]; the stream type never changes. *)
Definition rendered (source : Stream) (o : OutputStream) : Stream :=
  mkStream (codec_type source)
           (output_codec_name source o) (output_default source o).

(** Modelled from the spec: the post-transform stream set, one stream
    per plan entry in the order of the plan, each made from the source
    stream the entry maps. *)
Definition post_transform (streams : list Stream) (plan : list OutputStream)
  : list Stream :=
  flat_map (fun o =>
              match nth_error streams (input_index o) with
              | Some source => [rendered source o]
              | None => []
              end) plan.

(** What one source stream becomes. *)
Definition post_of (sc dc : list string) (s : Stream) : list Stream :=
  match fragment sc dc 0 s with
  | Ok (_, frag) => map (rendered s) frag
  | Err _ => []
  end.

(** The conditions of the subtitle rules of lines 163, 187, 218 and
    241, which depend on the file only. *)
Definition rule2 (sc : list string) : bool :=
  list_eqb sc ["webvtt"] || list_eqb sc ["ass"].

Definition rule3 (sc dc : list string) : bool :=
  (list_eqb sc ["webvtt"; "subrip"] && list_eqb dc ["webvtt"])
  || (list_eqb sc ["ass"; "subrip"] && list_eqb dc ["ass"]).

Definition rule4 (sc dc : list string) : bool :=
  (list_in (sorted sc) [["subrip"; "webvtt"]; ["ass"; "subrip"]]
   || list_eqb sc ["subrip"])
  && list_eqb dc ["subrip"].

Definition rule5 (sc : list string) : bool :=
  issubset sc ["subrip"; "hdmv_pgs_subtitle"].

(** A file is settled when its subtitle streams, if not mov_text, are
    all copied as they are. *)
Definition settled (sc dc : list string) : Prop :=
  rule2 sc = false /\ rule3 sc dc = false /\ rule4 sc dc || rule5 sc = true.

(** A probe that answers with [streams], an ffmpeg that exits with [rc]
    and a fixed temporary name. *)
Definition sample_env (streams : list Stream) (rc : Z) : Env :=
  mkEnv (fun _ _ => mkProbeResult 0 streams "")
        (fun _ _ => (rc, "matroska"))
        (fun _ => mkPath "/tmp/tmp0" ".mkv")
        (fun p _ => p).

Definition sample_file : Path := mkPath "/media/film" ".mp4".

(** A disk that holds the sample file only. *)
Definition sample_world : World :=
  mkWorld (fun p => if path_eqb p sample_file then Some (File "mp4")
                    else None) [].

Definition video (codec : string) : Stream := mkStream "video" codec 1.
Definition audio (codec : string) : Stream := mkStream "audio" codec 1.
Definition subtitle (codec : string) (default : Z) : Stream :=
  mkStream "subtitle" codec default.

(* ================================================================= *)
(** ** The file selection: [match_file], [walk_paths] and the command *)

(** [file.parts], up to the root (see [split_slash]). *)
Definition parts (p : Path) : list string :=
  split_slash (path_str p) "".

(** A string without a slash. *)
Definition no_slash (s : string) : Prop :=
  forall c, In c (list_ascii_of_string s) -> c <> "/"%char.

(** A string with a dot. *)
Definition has_dot (s : string) : bool :=
  existsb (Ascii.eqb ".") (list_ascii_of_string s).

(** What the program asks of the directories: [path.is_dir()] and
    [path.rglob("*")], both answered from the disk as it is when asked. *)
Record Tree := mkTree {
  is_dir : Path -> FileSystem -> bool;
  rglob : Path -> FileSystem -> list Path
}.

(** [match_file] (lines 47-66). *)
Definition match_file (tree : Tree) (file : Path) (disk : FileSystem)
  : bool :=
  if str_in "@eaDir" (parts file) then false
  else if is_dir tree file disk then false
  else if str_in "Plex Versions" (parts file) then false
  else str_in (suffix file)
         [".mp4"; ".mkv"; ".avi"; ".mov"; ".wmv"; ".flv"; ".webm"; ".m4v"].

(** A computation that may also run out of recursion depth ([None]). *)
Definition W (A : Type) : Type := World -> option (result A * World).

(** The [for] loop of [walk_paths] (lines 36-44); [walk_dir] is the
    recursive call of line 38 on a list that has been built. *)
Fixpoint walk_loop (tree : Tree) (walk_dir : list Path -> W unit)
    (predicate : Path -> FileSystem -> bool) (callback : Path -> M unit)
    (paths : list Path) : W unit :=
  match paths with
  | [] => fun w => Some (Ok tt, w)
  | path :: rest => fun w =>
      let step :=
        if is_dir tree path (fs w) then
          walk_dir (filter (fun p => predicate p (fs w))
                           (rglob tree path (fs w))) w
        else if predicate path (fs w) then Some (callback path w)
        else Some (Ok tt, w) in
      match step with
      | Some (Ok _, w') => walk_loop tree walk_dir predicate callback rest w'
      | Some (Err e, w') => Some (Err e, w')
      | None => None
      end
  end.

(** [walk_paths] (lines 31-44); [fuel] bounds the depth of the
    recursion. *)
Fixpoint walk_paths (tree : Tree)
    (predicate : Path -> FileSystem -> bool) (callback : Path -> M unit)
    (fuel : nat) (paths : list Path) : W unit :=
  match fuel with
  | O => fun _ => None
  | S fuel' =>
      walk_loop tree (walk_paths tree predicate callback fuel')
                predicate callback paths
  end.

(** The command [recode_video] of [cli/__init__.py] (lines 23-28). *)
Definition recode_video (tree : Tree) (env : Env) (fuel : nat)
    (path : list Path) : W unit :=
  walk_paths tree (match_file tree) (handle_file env) fuel path.

(** [callback] on each file in turn, up to the first exception. *)
Fixpoint for_each (callback : Path -> M unit) (files : list Path) : M unit :=
  match files with
  | [] => ret tt
  | file :: rest => callback file ;;; for_each callback rest
  end.

(** The files of one command-line path that [match_file] lets through:
    for a directory those among everything below it, otherwise the path
    itself if it matches. *)
Definition candidates (tree : Tree) (path : Path) (disk : FileSystem)
  : list Path :=
  if is_dir tree path disk then
    filter (fun p => match_file tree p disk) (rglob tree path disk)
  else if match_file tree path disk then [path]
  else [].

(** The command as one pass: path by path, the candidates found when the
    path is reached, each handled in turn. *)
Fixpoint recode_flat (tree : Tree) (env : Env) (paths : list Path)
  : M unit :=
  match paths with
  | [] => ret tt
  | path :: rest => fun w =>
      (for_each (handle_file env) (candidates tree path (fs w)) ;;;
       recode_flat tree env rest) w
  end.

(** A path [match_file] can let through as far as its name goes. *)
Definition candidate_name (p : Path) : Prop :=
  ~ In "@eaDir" (parts p) /\
  ~ In "Plex Versions" (parts p) /\
  In (suffix p)
     [".mp4"; ".mkv"; ".avi"; ".mov"; ".wmv"; ".flv"; ".webm"; ".m4v"].


(** The entries of a plan that map the stream at position [i]. *)
Definition entries_of (i : nat) (plan : list OutputStream)
  : list OutputStream :=
  filter (fun o => input_index o =? i)%nat plan.

(** A disk with the sample file and a directory at its [.mkv] path. *)
Definition directory_world : World :=
  mkWorld (fun p => if path_eqb p sample_file then Some (File "mp4")
                    else if path_eqb p (with_suffix sample_file ".mkv")
                         then Some Directory
                    else None) [].

(** A directory [/media] with the sample file, a text file and a copy
    of the film under [@eaDir] below it. *)
Definition sample_dir : Path := mkPath "/media" "".

Definition sample_tree : Tree :=
  mkTree (fun p _ => path_eqb p sample_dir)
         (fun p _ =>
            if path_eqb p sample_dir
            then [ sample_file;
                   mkPath "/media/notes" ".txt";
                   mkPath "/media/@eaDir/film" ".mp4" ]
            else []).

(** An ffprobe that fails on every file. *)
Definition failing_probe_env : Env :=
  mkEnv (fun _ _ => mkProbeResult 1 [] "moov atom not found")
        (fun _ _ => (0%Z, "matroska"))
        (fun _ => mkPath "/tmp/tmp0" ".mkv")
        (fun p _ => p).

(* ================================================================= *)
(** ** Basic facts about the primitives *)

Lemma str_in_In (x : string) (l : list string) :
  str_in x l = true <-> In x l.
Proof.
  unfold str_in. rewrite existsb_exists. split.
  - intros [y [Hy E]]. apply String.eqb_eq in E. now subst.
  - intros H. exists x. split; [assumption | apply String.eqb_refl].
Qed.

Lemma str_in_false (x : string) (l : list string) :
  str_in x l = false <-> ~ In x l.
Proof.
  rewrite <- str_in_In. destruct (str_in x l); split; congruence.
Qed.

Lemma list_eqb_eq (a b : list string) : list_eqb a b = true <-> a = b.
Proof.
  unfold list_eqb. destruct (list_eq_dec string_dec a b); split; congruence.
Qed.

Lemma list_eqb_neq (a b : list string) : list_eqb a b = false <-> a <> b.
Proof.
  unfold list_eqb. destruct (list_eq_dec string_dec a b); split; congruence.
Qed.

Lemma list_eqb_refl (a : list string) : list_eqb a a = true.
Proof. now apply list_eqb_eq. Qed.

Lemma is_video_true (s : Stream) : is_video s = true <-> codec_type s = "video".
Proof. unfold is_video. apply String.eqb_eq. Qed.

Lemma is_subtitle_true (s : Stream) :
  is_subtitle s = true <-> codec_type s = "subtitle".
Proof. unfold is_subtitle. apply String.eqb_eq. Qed.

(** [handle_file] once the probe has answered: the three ways on from
    [evaluate]. *)
Lemma handle_file_probed (env : Env) (file : Path) (w : World) :
  probe_returncode (ffprobe env (resolve env file (fs w)) (fs w)) = 0%Z ->
  handle_file env file w =
    match evaluate (probe_streams (ffprobe env (resolve env file (fs w)) (fs w))) with
    | Err e => (Err e, probed (resolve env file (fs w)) w)
    | Ok None => (Ok tt, probed (resolve env file (fs w)) w)
    | Ok (Some output_streams) =>
        match build_ffmpeg_args (path_str (resolve env file (fs w)))
                                output_streams with
        | Err e => (Err e, probed (resolve env file (fs w)) w)
        | Ok ffmpeg_args =>
            transform env (resolve env file (fs w))
                      (with_suffix (resolve env file (fs w)) ".mkv")
                      ffmpeg_args (probed (resolve env file (fs w)) w)
        end
    end.
Proof.
  intros Hrc.
  unfold handle_file, path_resolve, get_video_info, bind, emit, lift. simpl.
  rewrite Hrc. simpl.
  destruct (evaluate _) as [[plan|]|e]; reflexivity.
Qed.

Lemma filter_nil_iff {A} (p : A -> bool) (l : list A) :
  filter p l = [] <-> forall x, In x l -> p x = false.
Proof.
  induction l as [|a l IH]; simpl.
  - split; [intros _ x []| reflexivity].
  - destruct (p a) eqn:E; split.
    + discriminate.
    + intros H. specialize (H a (or_introl eq_refl)). congruence.
    + intros H x [<-|Hx]; [assumption | now apply IH].
    + intros H. apply IH. intros x Hx. apply H. now right.
Qed.

(* ================================================================= *)
(** ** C1: a file without a video stream *)

(** C1.  When the probed stream list has no stream whose [codec_type] is
    [video], the evaluation fails with [NoVideoStream] whatever the other
    streams are (the check of line 85 precedes the classification loop, so
    no output stream is built), and [handle_file] stops there: the file
    system is the one it started from and the log holds the probe only, so
    no temporary file was made and ffmpeg was not run. *)
Theorem no_video_stream_rejected
    (env : Env) (file : Path) (w : World) (streams : list Stream) :
  probe_returncode (ffprobe env (resolve env file (fs w)) (fs w)) = 0%Z ->
  probe_streams (ffprobe env (resolve env file (fs w)) (fs w)) = streams ->
  (forall s, In s streams -> codec_type s <> "video") ->
  classify streams = Err NoVideoStream /\
  evaluate streams = Err NoVideoStream /\
  handle_file env file w =
    (Err NoVideoStream,
     mkWorld (fs w) (log w ++ [EvProbe (resolve env file (fs w))])).
Proof.
  intros Hrc Hst Hnov.
  assert (Hc : classify streams = Err NoVideoStream).
  { unfold classify.
    replace (filter is_video streams) with (@nil Stream); [reflexivity|].
    symmetry. apply filter_nil_iff. intros s Hs.
    destruct (is_video s) eqn:E; [|reflexivity].
    apply is_video_true in E. now apply Hnov in Hs. }
  assert (He : evaluate streams = Err NoVideoStream).
  { unfold evaluate. now rewrite Hc. }
  split; [exact Hc | split; [exact He |]].
  rewrite (handle_file_probed env file w Hrc), Hst, He. reflexivity.
Qed.

(* ================================================================= *)
(** ** The loop as a fold of per-stream fragments *)

Ltac split_ifs :=
  repeat match goal with
         | |- context [if ?c then _ else _] => destruct c eqn:?
         end.

Lemma classify_stream_fragment sc dc i s (b : bool) (outs : list OutputStream) :
  classify_stream sc dc i s (b, outs) =
    rbind (fragment sc dc i s)
          (fun '(f, frag) => Ok (b || f, outs ++ frag)).
Proof.
  unfold fragment, classify_stream. split_ifs; simpl;
    rewrite ?orb_true_r, ?orb_false_r, ?app_nil_r, <- ?app_assoc;
    reflexivity.
Qed.

Lemma classify_loop_fragment sc dc streams :
  forall i (b : bool) (outs : list OutputStream),
  classify_loop sc dc i streams (b, outs) =
    rbind (classify_loop sc dc i streams (false, []))
          (fun '(f, frag) => Ok (b || f, outs ++ frag)).
Proof.
  induction streams as [|s rest IH]; intros i b outs; cbn [classify_loop].
  - simpl. now rewrite orb_false_r, app_nil_r.
  - rewrite (classify_stream_fragment sc dc i s b outs).
    rewrite (classify_stream_fragment sc dc i s false []).
    destruct (fragment sc dc i s) as [[f frag]|e]; simpl; [|reflexivity].
    rewrite (IH (S i) (b || f) (outs ++ frag)), (IH (S i) f frag).
    destruct (classify_loop sc dc (S i) rest (false, [])) as [[f' frag']|e];
      simpl; [|reflexivity].
    now rewrite orb_assoc, app_assoc.
Qed.

(** One step of the loop, in fragments. *)
Lemma classify_loop_cons sc dc i s rest :
  classify_loop sc dc i (s :: rest) (false, []) =
    rbind (fragment sc dc i s) (fun '(f, frag) =>
    rbind (classify_loop sc dc (S i) rest (false, [])) (fun '(f', frag') =>
    Ok (f || f', frag ++ frag'))).
Proof.
  cbn [classify_loop]. fold (fragment sc dc i s).
  destruct (fragment sc dc i s) as [[f frag]|e]; simpl; [|reflexivity].
  now rewrite classify_loop_fragment.
Qed.

(** Every entry of a fragment carries the index of its stream. *)
Lemma fragment_index sc dc i s f frag :
  fragment sc dc i s = Ok (f, frag) ->
  Forall (fun o => input_index o = i) frag.
Proof.
  unfold fragment, classify_stream. split_ifs; intros H; inversion H; subst;
    simpl; repeat constructor.
Qed.

(** The loop emits entries with indices from [i] on, in ascending order. *)
Lemma classify_loop_ascending sc dc streams :
  forall i f frag,
  classify_loop sc dc i streams (false, []) = Ok (f, frag) ->
  Forall (fun o => i <= input_index o) frag /\
  StronglySorted (fun a b => input_index a <= input_index b) frag.
Proof.
  induction streams as [|s rest IH]; intros i f frag.
  - simpl. intros H. inversion H; subst. split; constructor.
  - rewrite classify_loop_cons.
    destruct (fragment sc dc i s) as [[f1 frag1]|e] eqn:E1; simpl;
      [|discriminate].
    destruct (classify_loop sc dc (S i) rest (false, []))
      as [[f2 frag2]|e] eqn:E2; simpl; [|discriminate].
    intros H. inversion H; subst; clear H.
    apply fragment_index in E1. destruct (IH _ _ _ E2) as [Hge Hs].
    split.
    + apply Forall_app. split.
      * eapply Forall_impl; [|exact E1]. simpl. intros; lia.
      * eapply Forall_impl; [|exact Hge]. simpl. intros; lia.
    + clear IH E2. induction frag1 as [|o frag1 IHf]; simpl; [assumption|].
      inversion E1; subst. constructor; [now apply IHf|].
      apply Forall_app. split.
      * eapply Forall_impl; [|eassumption]. simpl. intros; lia.
      * eapply Forall_impl; [|exact Hge]. simpl. intros; lia.
Qed.

(* ================================================================= *)
(** ** The sort of line 280 *)

Section SortRearranges.
Variable A : Type.
Variable le : A -> A -> bool.

Lemma insert_sorted_perm (x : A) (l : list A) :
  Permutation (x :: l) (insert_sorted le x l).
Proof.
  induction l as [|y l IH]; simpl; [constructor; constructor|].
  destruct (le x y); [apply Permutation_refl|].
  eapply perm_trans; [apply perm_swap|]. now constructor.
Qed.

Lemma stable_sort_perm (l : list A) : Permutation l (stable_sort le l).
Proof.
  induction l as [|x l IH]; simpl; [constructor|].
  eapply perm_trans; [|apply insert_sorted_perm]. now constructor.
Qed.
End SortRearranges.

Section SortByKey.
Variable A : Type.
Variable key : A -> nat.

Let le (a b : A) : bool := (key a <=? key b)%nat.
Let ordered (a b : A) : Prop := key a <= key b.

Lemma insert_sorted_ordered (x : A) (l : list A) :
  StronglySorted ordered l -> StronglySorted ordered (insert_sorted le x l).
Proof.
  induction 1 as [|y l Hs IH Hall]; simpl.
  - repeat constructor.
  - unfold le at 1. destruct (Nat.leb_spec (key x) (key y)) as [Hle|Hlt].
    + constructor; [now constructor|]. constructor; [exact Hle|].
      eapply Forall_impl; [|exact Hall]. unfold ordered. intros; lia.
    + constructor; [exact IH|].
      eapply Permutation_Forall; [apply insert_sorted_perm|].
      constructor; [unfold ordered; lia | exact Hall].
Qed.

Lemma stable_sort_ordered (l : list A) :
  StronglySorted ordered (stable_sort le l).
Proof.
  induction l as [|x l IH]; simpl; [constructor|].
  now apply insert_sorted_ordered.
Qed.

(** Stability: the entries of one key keep their order. *)
Lemma insert_sorted_filter (k : nat) (x : A) (l : list A) :
  filter (fun a => key a =? k)%nat (insert_sorted le x l) =
  filter (fun a => key a =? k)%nat (x :: l).
Proof.
  induction l as [|y l IH]; [reflexivity|].
  cbn [insert_sorted]. unfold le at 1.
  destruct (Nat.leb_spec (key x) (key y)) as [Hle|Hlt]; [reflexivity|].
  cbn [filter] in *. rewrite IH.
  destruct (Nat.eqb_spec (key x) k), (Nat.eqb_spec (key y) k);
    try reflexivity.
  lia.
Qed.

Lemma stable_sort_filter (k : nat) (l : list A) :
  filter (fun a => key a =? k)%nat (stable_sort le l) =
  filter (fun a => key a =? k)%nat l.
Proof.
  induction l as [|x l IH]; [reflexivity|].
  cbn [stable_sort]. rewrite insert_sorted_filter. cbn [filter].
  now rewrite IH.
Qed.

(** A list that is already in order is left as it is. *)
Lemma stable_sort_id (l : list A) :
  StronglySorted ordered l -> stable_sort le l = l.
Proof.
  induction 1 as [|x l Hs IH Hall]; [reflexivity|].
  cbn [stable_sort]. rewrite IH.
  destruct l as [|y l]; [reflexivity|].
  cbn [insert_sorted]. inversion Hall; subst.
  unfold le. destruct (Nat.leb_spec (key x) (key y)); [reflexivity|].
  unfold ordered in *. lia.
Qed.
End SortByKey.

(* ================================================================= *)
(** ** Errors of the loop *)

(** The loop stops at the first stream whose fragment is an error. *)
Lemma classify_loop_first_error sc dc pre s post e :
  forall i r,
  classify_loop sc dc i pre (false, []) = Ok r ->
  fragment sc dc (i + length pre) s = Err e ->
  classify_loop sc dc i (pre ++ s :: post) (false, []) = Err e.
Proof.
  induction pre as [|p pre IH]; intros i r Hpre Hs.
  - simpl app. rewrite classify_loop_cons.
    simpl in Hs. rewrite Nat.add_0_r in Hs. now rewrite Hs.
  - simpl app. rewrite classify_loop_cons in *.
    destruct (fragment sc dc i p) as [[f frag]|e'] eqn:E; simpl in *;
      [|discriminate].
    destruct (classify_loop sc dc (S i) pre (false, [])) as [r'|e'] eqn:E';
      simpl in *; [|discriminate].
    rewrite (IH (S i) r' E'); [reflexivity|].
    now replace (S i + length pre) with (i + S (length pre)) by lia.
Qed.

(** A stream that is an error at every index makes the loop fail. *)
Lemma classify_loop_error sc dc s streams :
  In s streams ->
  (forall i, exists e, fragment sc dc i s = Err e) ->
  forall i, exists e, classify_loop sc dc i streams (false, []) = Err e.
Proof.
  intros Hin Hs. induction streams as [|x rest IH]; intros i; [easy|].
  rewrite classify_loop_cons.
  destruct (fragment sc dc i x) as [[f frag]|e] eqn:E; simpl;
    [|now exists e].
  destruct Hin as [->|Hin].
  - destruct (Hs i) as [e He]. congruence.
  - destruct (IH Hin (S i)) as [e He]. rewrite He. simpl. now exists e.
Qed.

Lemma classify_has_video (streams : list Stream) (s : Stream) :
  In s streams -> codec_type s = "video" ->
  classify streams =
    classify_loop (subtitle_codecs_of streams)
                  (default_subtitle_codecs_of streams) 0 streams (false, []).
Proof.
  intros Hin Hv. unfold classify.
  assert (H : In s (filter is_video streams)).
  { apply filter_In. split; [assumption | now apply is_video_true]. }
  destruct (filter is_video streams); [easy | reflexivity].
Qed.

(** A stream that cannot be classified makes [evaluate] fail. *)
Lemma evaluate_error_of_stream (streams : list Stream) (s : Stream) :
  In s streams ->
  (forall sc dc i, exists e, fragment sc dc i s = Err e) ->
  exists e, evaluate streams = Err e.
Proof.
  intros Hin Hs. unfold evaluate, classify.
  destruct (length (filter is_video streams) =? 0)%nat;
    [now exists NoVideoStream|].
  destruct (@classify_loop_error (subtitle_codecs_of streams)
              (default_subtitle_codecs_of streams) s streams Hin
              (Hs _ _) 0) as [e He].
  rewrite He. now exists e.
Qed.

(* ================================================================= *)
(** ** C2: video streams *)

(** C2.  One iteration of the loop on a stream whose [codec_type] is
    [video], from any accumulators [(needs_run, output_streams)]:
    - codec [vc1], [hevc], [vp9] or [av1]: one entry is appended that
      encodes with libx264 at crf 20, preset medium, and sets the default
      disposition; [needs_run] becomes true;
    - codec [h264], [mjpeg] or [png]: one entry is appended that copies,
      with no disposition option; [needs_run] is left as it was;
    - any other codec: the iteration raises [UnhandledVideoCodec], and
      [handle_file] on a file with such a stream ends in an error right
      after the probe, with the file system unchanged. *)
Theorem video_stream_policy
    (sc dc : list string) (i : nat) (s : Stream)
    (needs_run : bool) (output_streams : list OutputStream) :
  codec_type s = "video" ->
  (In (codec_name s) ["vc1"; "hevc"; "vp9"; "av1"] ->
   classify_stream sc dc i s (needs_run, output_streams) =
     Ok (true,
         output_streams ++
           [mkOutputStream i
              ["-c:{output_index}"; "libx264";
               "-crf:{output_index}"; "20";
               "-preset:{output_index}"; "medium";
               "-disposition:{output_index}"; "+default"]])) /\
  (In (codec_name s) ["h264"; "mjpeg"; "png"] ->
   classify_stream sc dc i s (needs_run, output_streams) =
     Ok (needs_run,
         output_streams ++
           [mkOutputStream i ["-c:{output_index}"; "copy"]])) /\
  (~ In (codec_name s)
        ["vc1"; "hevc"; "vp9"; "av1"; "h264"; "mjpeg"; "png"] ->
   classify_stream sc dc i s (needs_run, output_streams) =
     Err (UnhandledVideoCodec s) /\
   forall env file w,
     probe_returncode (ffprobe env (resolve env file (fs w)) (fs w)) = 0%Z ->
     In s (probe_streams (ffprobe env (resolve env file (fs w)) (fs w))) ->
     exists e,
       handle_file env file w =
         (Err e,
          mkWorld (fs w) (log w ++ [EvProbe (resolve env file (fs w))]))).
Proof.
  intros Hv.
  assert (Hstep : forall sc dc i st,
    classify_stream sc dc i s st =
      let '(needs_run, output_streams) := st in
      if str_in (codec_name s) ["vc1"; "hevc"; "vp9"; "av1"] then
        Ok (true, output_streams ++ [mkOutputStream i opts_libx264])
      else if str_in (codec_name s) ["h264"; "mjpeg"; "png"] then
        Ok (needs_run, output_streams ++ [mkOutputStream i opts_copy])
      else Err (UnhandledVideoCodec s)).
  { intros sc' dc' i' [b outs]. unfold classify_stream.
    now rewrite Hv. }
  rewrite Hstep. split; [|split].
  - intros H. apply str_in_In in H. now rewrite H.
  - intros H.
    assert (H1 : str_in (codec_name s) ["vc1"; "hevc"; "vp9"; "av1"] = false).
    { apply str_in_false. intros H1. simpl in H, H1.
      repeat destruct H as [H|H]; repeat destruct H1 as [H1|H1];
        congruence. }
    apply str_in_In in H. now rewrite H1, H.
  - intros H.
    assert (H1 : str_in (codec_name s) ["vc1"; "hevc"; "vp9"; "av1"] = false).
    { apply str_in_false. intros H1. apply H. simpl in *. tauto. }
    assert (H2 : str_in (codec_name s) ["h264"; "mjpeg"; "png"] = false).
    { apply str_in_false. intros H2. apply H. simpl in *. tauto. }
    rewrite H1, H2. split; [reflexivity|].
    intros env file w Hrc Hin.
    destruct (@evaluate_error_of_stream _ s Hin) as [e He].
    { intros sc' dc' i'. exists (UnhandledVideoCodec s).
      unfold fragment. rewrite Hstep. now rewrite H1, H2. }
    exists e. rewrite (handle_file_probed env file w Hrc), He. reflexivity.
Qed.

(* ================================================================= *)
(** ** C6: nothing to do *)

(** C6.  When the classification of the probed streams ends with
    [needs_run] false, [evaluate] yields no plan (the [return] of line
    278) and [handle_file] returns normally with the file system it
    started from and a log that holds the probe only: no argument list
    reached ffmpeg, no temporary file was made, nothing was moved or
    removed. *)
Theorem no_transform_returns_early
    (env : Env) (file : Path) (w : World)
    (output_streams : list OutputStream) :
  probe_returncode (ffprobe env (resolve env file (fs w)) (fs w)) = 0%Z ->
  classify (probe_streams (ffprobe env (resolve env file (fs w)) (fs w)))
    = Ok (false, output_streams) ->
  evaluate (probe_streams (ffprobe env (resolve env file (fs w)) (fs w))) = Ok None /\
  handle_file env file w =
    (Ok tt, mkWorld (fs w) (log w ++ [EvProbe (resolve env file (fs w))])).
Proof.
  intros Hrc Hc.
  assert (He : evaluate (probe_streams (ffprobe env (resolve env file (fs w)) (fs w))) = Ok None).
  { unfold evaluate. now rewrite Hc. }
  split; [exact He|].
  rewrite (handle_file_probed env file w Hrc), He. reflexivity.
Qed.

(* ================================================================= *)
(** ** C5: the order of the plan *)

(** C5.  Whenever [evaluate] yields a plan, the plan is in ascending order
    of [input_index], it is a rearrangement of the entries the loop
    emitted, and for every index the entries of that index appear in the
    plan in the order in which the loop emitted them (so the two entries
    of a lone webvtt or ass subtitle stay convert-then-copy). *)
Theorem plan_sorted_and_stable
    (streams : list Stream) (plan : list OutputStream) :
  evaluate streams = Ok (Some plan) ->
  StronglySorted (fun a b => input_index a <= input_index b) plan /\
  exists emitted,
    classify streams = Ok (true, emitted) /\
    Permutation emitted plan /\
    forall k,
      filter (fun o => input_index o =? k)%nat plan =
      filter (fun o => input_index o =? k)%nat emitted.
Proof.
  unfold evaluate. destruct (classify streams) as [[b emitted]|e]; simpl;
    [|discriminate].
  destruct b; simpl; [|discriminate].
  intros H. inversion H; subst; clear H. unfold sort_by_input_index.
  split; [apply stable_sort_ordered|].
  exists emitted. split; [reflexivity|]. split.
  - apply stable_sort_perm.
  - intros k. apply stable_sort_filter.
Qed.

(* ================================================================= *)
(** ** The entries of one stream *)

Lemma filter_all {A} (p : A -> bool) (l : list A) :
  Forall (fun x => p x = true) l -> filter p l = l.
Proof.
  induction 1 as [|x l Hx _ IH]; simpl; [reflexivity|].
  now rewrite Hx, IH.
Qed.

Lemma filter_none {A} (p : A -> bool) (l : list A) :
  Forall (fun x => p x = false) l -> filter p l = [].
Proof.
  induction 1 as [|x l Hx _ IH]; simpl; [reflexivity|].
  now rewrite Hx, IH.
Qed.

(** In what the loop emits, the entries of index [j + i] are exactly the
    fragment of the stream at position [i], and a fragment that forces a
    run makes the loop's verdict true. *)
Lemma classify_loop_nth sc dc streams :
  forall j i s f frag,
  classify_loop sc dc j streams (false, []) = Ok (f, frag) ->
  nth_error streams i = Some s ->
  exists f_s frag_s,
    fragment sc dc (j + i) s = Ok (f_s, frag_s) /\
    filter (fun o => input_index o =? j + i)%nat frag = frag_s /\
    (f_s = true -> f = true).
Proof.
  induction streams as [|x rest IH]; intros j i s f frag Hloop Hnth.
  - destruct i; discriminate.
  - rewrite classify_loop_cons in Hloop.
    destruct (fragment sc dc j x) as [[f1 frag1]|e] eqn:E1; simpl in Hloop;
      [|discriminate].
    destruct (classify_loop sc dc (S j) rest (false, []))
      as [[f2 frag2]|e] eqn:E2; simpl in Hloop; [|discriminate].
    inversion Hloop; subst; clear Hloop.
    pose proof (fragment_index _ _ _ _ E1) as Hidx.
    destruct (classify_loop_ascending _ _ _ _ E2) as [Hge _].
    rewrite filter_app.
    destruct i as [|i]; simpl in Hnth.
    + inversion Hnth; subst; clear Hnth. rewrite Nat.add_0_r.
      exists f1, frag1. split; [exact E1|]. split.
      * rewrite filter_all, filter_none; [apply app_nil_r | |].
        -- eapply Forall_impl; [|exact Hge]. simpl. intros o Ho.
           apply Nat.eqb_neq. lia.
        -- eapply Forall_impl; [|exact Hidx]. simpl. intros o Ho.
           now apply Nat.eqb_eq.
      * intros ->. reflexivity.
    + destruct (IH (S j) i s f2 frag2 E2 Hnth) as (f_s & frag_s & Hf & Hfl & Hb).
      replace (j + S i) with (S j + i) by lia.
      exists f_s, frag_s. split; [exact Hf|]. split.
      * rewrite filter_none; [exact Hfl|].
        eapply Forall_impl; [|exact Hidx]. simpl. intros o Ho.
        apply Nat.eqb_neq. lia.
      * intros H. rewrite (Hb H). apply orb_true_r.
Qed.

Lemma subtitle_codec_listed (streams : list Stream) (i : nat) (s : Stream) :
  nth_error streams i = Some s ->
  codec_type s = "subtitle" ->
  In (codec_name s) (subtitle_codecs_of streams).
Proof.
  intros Hnth Hty. unfold subtitle_codecs_of. apply in_map.
  apply filter_In. split; [eapply nth_error_In; eassumption|].
  now apply is_subtitle_true.
Qed.

Lemma classify_accepts_loop (streams : list Stream) r :
  classify streams = Ok r ->
  classify_loop (subtitle_codecs_of streams)
                (default_subtitle_codecs_of streams) 0 streams (false, [])
    = Ok r.
Proof.
  unfold classify.
  destruct (length (filter is_video streams) =? 0)%nat; [discriminate|].
  trivial.
Qed.

(* ================================================================= *)
(** ** C4: a lone webvtt or ass subtitle stream *)

(** C4.  In a file that [classify] accepts and whose list of subtitle
    codecs is [[webvtt]] or [[ass]], let the subtitle stream stand at
    position [i].  Then [needs_run] is true, [evaluate] yields a plan, and
    the entries of the plan whose [input_index] is [i] are exactly two:
    first the conversion to srt with the default disposition set, then
    the copy with the default disposition cleared. *)
Theorem lone_subtitle_converted_and_kept
    (streams : list Stream) (needs_run : bool)
    (output_streams : list OutputStream)
    (c : string) (i : nat) (s : Stream) :
  classify streams = Ok (needs_run, output_streams) ->
  subtitle_codecs_of streams = [c] ->
  c = "webvtt" \/ c = "ass" ->
  nth_error streams i = Some s ->
  codec_type s = "subtitle" ->
  needs_run = true /\
  exists plan,
    evaluate streams = Ok (Some plan) /\
    filter (fun o => input_index o =? i)%nat plan =
      [ mkOutputStream i
          ["-c:{output_index}"; "srt";
           "-disposition:{output_index}"; "+default"];
        mkOutputStream i
          ["-c:{output_index}"; "copy";
           "-disposition:{output_index}"; "-default"] ].
Proof.
  intros Hc Hsc Hcodec Hnth Hty.
  pose proof (subtitle_codec_listed _ _ Hnth Hty) as Hin.
  rewrite Hsc in Hin. destruct Hin as [Hin|[]].
  destruct (classify_loop_nth _ _ _ 0 i (classify_accepts_loop _ Hc) Hnth)
    as (f_s & frag_s & Hf & Hfl & Hb).
  simpl in Hf, Hfl. rewrite Hsc in Hf.
  assert (Hfrag : fragment [c] (default_subtitle_codecs_of streams) i s =
    Ok (true,
        [ mkOutputStream i opts_srt;
          mkOutputStream i (opts_copy_disposition "-default") ])).
  { destruct s as [ty cn d]. simpl in Hty, Hin. subst ty cn.
    destruct Hcodec as [->| ->]; reflexivity. }
  rewrite Hfrag in Hf. injection Hf as <- <-.
  specialize (Hb eq_refl). subst needs_run. split; [reflexivity|].
  exists (sort_by_input_index output_streams). split.
  - unfold evaluate. now rewrite Hc.
  - unfold sort_by_input_index. rewrite stable_sort_filter. exact Hfl.
Qed.

(* ================================================================= *)
(** ** C3: the webvtt/subrip and ass/subrip pairs *)

(** With the subtitle streams in the order the code compares against
    ([webvtt] or [ass] first, [subrip] second) and the first one default,
    every subtitle stream of an accepted file is copied, [subrip] with
    [+default] and the other with [-default], and a run is forced. *)
Lemma ordered_pair_copied
    (streams : list Stream) (needs_run : bool)
    (output_streams : list OutputStream)
    (c : string) (i : nat) (s : Stream) :
  classify streams = Ok (needs_run, output_streams) ->
  c = "webvtt" \/ c = "ass" ->
  subtitle_codecs_of streams = [c; "subrip"] ->
  default_subtitle_codecs_of streams = [c] ->
  nth_error streams i = Some s ->
  codec_type s = "subtitle" ->
  needs_run = true /\
  filter (fun o => input_index o =? i)%nat
         (sort_by_input_index output_streams) =
    [ mkOutputStream i
        ["-c:{output_index}"; "copy"; "-disposition:{output_index}";
         if codec_name s =? "subrip" then "+default" else "-default"] ].
Proof.
  intros Hc Hcodec Hsc Hdc Hnth Hty.
  pose proof (subtitle_codec_listed _ _ Hnth Hty) as Hin.
  rewrite Hsc in Hin.
  destruct (classify_loop_nth _ _ _ 0 i (classify_accepts_loop _ Hc) Hnth)
    as (f_s & frag_s & Hf & Hfl & Hb).
  simpl in Hf, Hfl. rewrite Hsc, Hdc in Hf.
  assert (Hfrag : fragment [c; "subrip"] [c] i s =
    Ok (true,
        [ mkOutputStream i
            (opts_copy_disposition
               (if codec_name s =? "subrip"
                then "+default" else "-default")) ])).
  { destruct s as [ty cn d]. simpl in Hty, Hin. subst ty.
    destruct Hcodec as [->| ->]; destruct Hin as [<-|[<-|[]]];
      reflexivity. }
  rewrite Hfrag in Hf. injection Hf as <- <-.
  specialize (Hb eq_refl). subst needs_run. split; [reflexivity|].
  unfold sort_by_input_index. rewrite stable_sort_filter. exact Hfl.
Qed.

(** C3.  The order of the subtitle streams matters to rule 3: for a
    file with an h264 video stream, then a subrip subtitle stream (not
    default), then a webvtt subtitle stream (default), the comparison of
    line 188 is against the list [[webvtt, subrip]] in that order, no
    later rule takes the pair either, and the evaluation raises the
    unhandled-subtitles error.  With the two subtitle streams exchanged
    the same file is accepted and both are copied. *)
Theorem reversed_pair_rejected :
  evaluate [ mkStream "video" "h264" 1;
             mkStream "subtitle" "subrip" 0;
             mkStream "subtitle" "webvtt" 1 ]
    = Err (UnhandledSubtitles ["subrip"; "webvtt"]) /\
  evaluate [ mkStream "video" "h264" 1;
             mkStream "subtitle" "webvtt" 1;
             mkStream "subtitle" "subrip" 0 ]
    = Ok (Some
        [ mkOutputStream 0 ["-c:{output_index}"; "copy"];
          mkOutputStream 1
            ["-c:{output_index}"; "copy";
             "-disposition:{output_index}"; "-default"];
          mkOutputStream 2
            ["-c:{output_index}"; "copy";
             "-disposition:{output_index}"; "+default"] ]).
Proof. split; reflexivity. Qed.

(* ================================================================= *)
(** ** C7: the argument tokens *)

Lemma format_scan_plain (value s : string) :
  plain_template s ->
  format_scan value s None = Some (substitute_placeholder value s).
Proof.
  unfold substitute_placeholder.
  induction 1 as [|c s Hl Hr _ IH|s _ IH].
  - reflexivity.
  - cbn [format_scan substitute_from].
    apply Ascii.eqb_neq in Hl, Hr. rewrite Hl, Hr, IH.
    cbn [starts_with]. rewrite Ascii.eqb_sym, Hl. reflexivity.
  - simpl. rewrite IH. reflexivity.
Qed.

Lemma format_options_plain (opts : list string) (i : nat) :
  Forall plain_template opts ->
  format_options opts i =
    Ok (map (substitute_placeholder (str_of_nat i)) opts).
Proof.
  induction 1 as [|opt opts Hopt _ IH]; [reflexivity|].
  cbn [format_options map]. unfold format_output_index.
  rewrite (format_scan_plain _ Hopt). simpl. now rewrite IH.
Qed.

Lemma map_loop_plain (plan : list OutputStream) :
  Forall plain_entry plan ->
  forall i acc,
  map_loop i plan acc =
    Ok (acc ++ concat (map (fun '(k, entry) => entry_tokens k entry)
                           (combine (seq i (length plan)) plan))).
Proof.
  induction 1 as [|entry plan Hentry _ IH]; intros i acc.
  - simpl. now rewrite app_nil_r.
  - cbn [map_loop]. rewrite (format_options_plain i Hentry).
    cbn [rbind]. rewrite IH. f_equal.
    cbn [length seq combine map concat]. unfold entry_tokens at 2.
    rewrite <- !app_assoc. reflexivity.
Qed.

Ltac prove_plain :=
  repeat first
    [ apply pt_nil
    | apply pt_char; [discriminate | discriminate | ]
    | apply pt_hole ].

Ltac prove_plain_list :=
  repeat (apply Forall_cons; [prove_plain|]); apply Forall_nil.

Ltac prove_plain_entries :=
  repeat (apply Forall_cons;
          [cbv [plain_entry options opts_libx264 opts_copy opts_srt
                opts_copy_disposition];
           prove_plain_list|]);
  apply Forall_nil.

Lemma fragment_plain sc dc i s f frag :
  fragment sc dc i s = Ok (f, frag) -> Forall plain_entry frag.
Proof.
  unfold fragment, classify_stream.
  split_ifs; intros H; inversion H; subst; prove_plain_entries.
Qed.

Lemma classify_loop_plain sc dc streams :
  forall i f frag,
  classify_loop sc dc i streams (false, []) = Ok (f, frag) ->
  Forall plain_entry frag.
Proof.
  induction streams as [|s rest IH]; intros i f frag.
  - simpl. intros H. inversion H. constructor.
  - rewrite classify_loop_cons.
    destruct (fragment sc dc i s) as [[f1 frag1]|e] eqn:E1; simpl;
      [|discriminate].
    destruct (classify_loop sc dc (S i) rest (false, []))
      as [[f2 frag2]|e] eqn:E2; simpl; [|discriminate].
    intros H. inversion H; subst. apply Forall_app. split.
    + eapply fragment_plain; eassumption.
    + eapply IH; eassumption.
Qed.

Lemma evaluate_plain (streams : list Stream) (plan : list OutputStream) :
  evaluate streams = Ok (Some plan) -> Forall plain_entry plan.
Proof.
  unfold evaluate.
  destruct (classify streams) as [[b emitted]|e] eqn:Hc; simpl;
    [|discriminate].
  destruct b; simpl; [|discriminate].
  intros H. inversion H; subst.
  eapply Permutation_Forall; [apply stable_sort_perm|].
  eapply classify_loop_plain. apply classify_accepts_loop. eassumption.
Qed.

Lemma append_empty_r (s : string) : (s ++ "")%string = s.
Proof. induction s as [|c s IH]; simpl; [reflexivity | now rewrite IH]. Qed.

(** What the substitution does to the shapes of option the program
    uses: a token that ends in the placeholder gets the value in its
    place, a token without braces is kept. *)
Lemma substitute_placeholder_plain (value s : string) :
  (forall c, In c (list_ascii_of_string s) -> c <> "{"%char) ->
  substitute_placeholder value s = s.
Proof.
  unfold substitute_placeholder.
  induction s as [|c s IH]; intros H; [reflexivity|].
  cbn [substitute_from starts_with].
  assert (Hc : Ascii.eqb "{" c = false).
  { apply Ascii.eqb_neq. intros E. apply (H c); [now left | now symmetry]. }
  rewrite Hc. simpl. rewrite IH; [reflexivity|].
  intros c' Hc'. apply H. now right.
Qed.

Lemma substitute_placeholder_suffix (value pre : string) :
  (forall c, In c (list_ascii_of_string pre) -> c <> "{"%char) ->
  substitute_placeholder value (pre ++ "{output_index}") =
    (pre ++ value)%string.
Proof.
  unfold substitute_placeholder.
  induction pre as [|c pre IH]; intros H.
  - simpl. now rewrite append_empty_r.
  - cbn [append substitute_from starts_with].
    assert (Hc : Ascii.eqb "{" c = false).
    { apply Ascii.eqb_neq. intros E. apply (H c); [now left | now symmetry]. }
    rewrite Hc. simpl. rewrite IH; [reflexivity|].
    intros c' Hc'. apply H. now right.
Qed.

(** C7.  For every plan that [evaluate] yields, the argument list built
    by lines 281-289 is [-i in_path] followed, for each entry of the plan
    in order, by [-map 0:<input_index>] and then the entry's options in
    which every [{output_index}] placeholder has been replaced by the
    entry's 0-based position in the plan (not by its source index). *)
Theorem compiled_tokens_follow_plan
    (streams : list Stream) (plan : list OutputStream) (in_path : string) :
  evaluate streams = Ok (Some plan) ->
  build_ffmpeg_args in_path plan =
    Ok (["-i"; in_path] ++
        concat (map (fun '(k, entry) =>
                       "-map"
                       :: ("0:" ++ str_of_nat (input_index entry))%string
                       :: map (substitute_placeholder (str_of_nat k))
                              (options entry))
                    (combine (seq 0 (length plan)) plan))).
Proof.
  intros He. unfold build_ffmpeg_args.
  now rewrite (map_loop_plain (evaluate_plain _ He)).
Qed.

(* ================================================================= *)
(** ** C9 and X15: the transform step *)








(** C9.  The original is removed although the replacement is not at the
    output path when a directory stands there.  For the file
    [/media/film.mp4] with an hevc stream, a directory at
    [/media/film.mkv] and an ffmpeg that exits with zero, [shutil.move]
    puts ffmpeg's output inside the directory under the temporary file's
    name, the test [out_path.exists()] of line 309 holds of the
    directory, and line 310 removes the original. *)
Theorem directory_at_output_path_loses_name :
  let out_path := with_suffix sample_file ".mkv" in
  let w' := snd (handle_file (sample_env [video "hevc"] 0) sample_file
                   directory_world) in
  fst (handle_file (sample_env [video "hevc"] 0) sample_file
         directory_world) = Ok tt /\
  fs w' sample_file = None /\
  fs w' out_path = Some Directory /\
  fs w' (mkPath "/media/film.mkv/tmp0" ".mkv") = Some (File "matroska") /\
  log w' =
    [ EvProbe sample_file;
      EvMkTemp (mkPath "/tmp/tmp0" ".mkv");
      EvFfmpeg [ "ffmpeg"; "-threads"; "16"; "-y";
                 "-i"; "/media/film.mp4";
                 "-map"; "0:0"; "-c:0"; "libx264"; "-crf:0"; "20";
                 "-preset:0"; "medium"; "-disposition:0"; "+default";
                 "-f"; "matroska"; "/tmp/tmp0.mkv" ];
      EvMove (mkPath "/tmp/tmp0" ".mkv")
             (mkPath "/media/film.mkv/tmp0" ".mkv");
      EvUnlink sample_file ].
Proof. cbv zeta. repeat split; reflexivity. Qed.

(* ================================================================= *)
(** ** C10: mov_text next to another subtitle codec *)

Lemma sorted_In (x : string) (l : list string) :
  In x l -> In x (sorted l).
Proof.
  intros H. eapply Permutation_in; [apply stable_sort_perm | exact H].
Qed.

Lemma list_eqb_not_listed (x : string) (a b : list string) :
  In x a -> ~ In x b -> list_eqb a b = false.
Proof.
  intros Ha Hb. apply list_eqb_neq. intros ->. contradiction.
Qed.

Lemma issubset_not_listed (x : string) (a b : list string) :
  In x a -> ~ In x b -> issubset a b = false.
Proof.
  intros Ha Hb. unfold issubset.
  destruct (forallb (fun y => str_in y b) a) eqn:E; [|reflexivity].
  rewrite forallb_forall in E. apply E in Ha. now apply str_in_In in Ha.
Qed.

Ltac not_listed :=
  simpl; intros H;
  repeat (destruct H as [H|H]; [discriminate H|]); exact H.

(** The subtitle branch on its own: the chain of lines 149-255 for a
    stream whose [codec_type] is [subtitle]. *)
Lemma fragment_subtitle sc dc i s :
  codec_type s = "subtitle" ->
  fragment sc dc i s =
    if codec_name s =? "mov_text" then
      Ok (true, [mkOutputStream i opts_srt])
    else if list_eqb sc ["webvtt"] || list_eqb sc ["ass"] then
      Ok (true, [mkOutputStream i opts_srt;
                 mkOutputStream i (opts_copy_disposition "-default")])
    else if (list_eqb sc ["webvtt"; "subrip"] && list_eqb dc ["webvtt"])
            || (list_eqb sc ["ass"; "subrip"] && list_eqb dc ["ass"]) then
      Ok (true,
          [mkOutputStream i
             (opts_copy_disposition
                (if codec_name s =? "subrip"
                 then "+default" else "-default"))])
    else if (list_in (sorted sc) [["subrip"; "webvtt"]; ["ass"; "subrip"]]
             || list_eqb sc ["subrip"])
            && list_eqb dc ["subrip"] then
      Ok (false, [mkOutputStream i opts_copy])
    else if issubset sc ["subrip"; "hdmv_pgs_subtitle"] then
      Ok (false, [mkOutputStream i opts_copy])
    else Err (UnhandledSubtitles sc).
Proof.
  intros Hty. unfold fragment, classify_stream. rewrite Hty.
  change ("subtitle" =? "video") with false.
  change ("subtitle" =? "audio") with false.
  change ("subtitle" =? "subtitle") with true.
  cbv beta iota. reflexivity.
Qed.

(** A subtitle stream other than mov_text, in a file that also has a
    mov_text subtitle stream, matches no rule. *)
Lemma fragment_mixed_mov_text sc dc i s :
  codec_type s = "subtitle" ->
  codec_name s <> "mov_text" ->
  In "mov_text" sc ->
  fragment sc dc i s = Err (UnhandledSubtitles sc).
Proof.
  intros Hty Hcn Hmov. rewrite (@fragment_subtitle sc dc i s Hty).
  apply String.eqb_neq in Hcn. rewrite Hcn.
  rewrite (@list_eqb_not_listed "mov_text" sc ["webvtt"]),
          (@list_eqb_not_listed "mov_text" sc ["ass"]),
          (@list_eqb_not_listed "mov_text" sc ["webvtt"; "subrip"]),
          (@list_eqb_not_listed "mov_text" sc ["ass"; "subrip"]),
          (@list_eqb_not_listed "mov_text" sc ["subrip"]),
          (@issubset_not_listed "mov_text" sc ["subrip"; "hdmv_pgs_subtitle"]);
    try assumption; try not_listed.
  unfold list_in. cbn [existsb].
  rewrite (@list_eqb_not_listed "mov_text" (sorted sc) ["subrip"; "webvtt"]),
          (@list_eqb_not_listed "mov_text" (sorted sc) ["ass"; "subrip"]);
    try (now apply sorted_In); try not_listed.
  reflexivity.
Qed.

Lemma fragment_unhandled_subtitles sc dc i s codecs :
  fragment sc dc i s = Err (UnhandledSubtitles codecs) ->
  codec_type s = "subtitle" /\ codec_name s <> "mov_text".
Proof.
  unfold fragment, classify_stream. split_ifs; intros H; try discriminate H.
  split; [now apply String.eqb_eq | now apply String.eqb_neq].
Qed.

(** An error of the loop is the error of one of its streams. *)
Lemma classify_loop_error_source sc dc streams e :
  forall i,
  classify_loop sc dc i streams (false, []) = Err e ->
  exists s j, In s streams /\ fragment sc dc j s = Err e.
Proof.
  induction streams as [|x rest IH]; intros i; [discriminate|].
  rewrite classify_loop_cons.
  destruct (fragment sc dc i x) as [[f frag]|e'] eqn:E; simpl.
  - destruct (classify_loop sc dc (S i) rest (false, [])) as [[f' frag']|e'']
      eqn:E'; simpl; [discriminate|].
    intros H. inversion H; subst.
    destruct (IH _ E') as (s & j & Hin & Hs).
    exists s, j. split; [now right | exact Hs].
  - intros H. inversion H; subst. exists x, i. split; [now left | exact E].
Qed.

Lemma evaluate_error_source (streams : list Stream) (e : Error) :
  evaluate streams = Err e ->
  e = NoVideoStream \/
  exists s j, In s streams /\
    fragment (subtitle_codecs_of streams)
             (default_subtitle_codecs_of streams) j s = Err e.
Proof.
  unfold evaluate, classify.
  destruct (length (filter is_video streams) =? 0)%nat; simpl.
  - intros H. inversion H. now left.
  - destruct (classify_loop _ _ 0 streams (false, [])) as [[b outs]|e']
      eqn:E; simpl.
    + destruct b; discriminate.
    + intros H. inversion H; subst. right.
      eapply classify_loop_error_source. eassumption.
Qed.

(** C10, counterexample.  That such a file always ends in the
    unhandled-subtitles error fails on a file that has a mov_text and a
    subrip subtitle stream and no video stream: the check of line 85
    comes first and the error is [NoVideoStream]. *)
Lemma mixed_mov_text_without_video :
  let streams := [ mkStream "subtitle" "mov_text" 1;
                   mkStream "subtitle" "subrip" 0 ] in
  (exists s1 s2,
     In s1 streams /\ codec_type s1 = "subtitle" /\
     codec_name s1 = "mov_text" /\
     In s2 streams /\ codec_type s2 = "subtitle" /\
     codec_name s2 <> "mov_text") /\
  evaluate streams = Err NoVideoStream /\
  forall codecs, evaluate streams <> Err (UnhandledSubtitles codecs).
Proof.
  cbv zeta. split; [|split].
  - exists (mkStream "subtitle" "mov_text" 1), (mkStream "subtitle" "subrip" 0).
    simpl. repeat split; auto. discriminate.
  - reflexivity.
  - intros codecs. discriminate.
Qed.

(** C10 (as amended).  Take a file with a mov_text subtitle stream [s1]
    and a subtitle stream [s2] of another codec, [s2] standing after the
    streams [pre].  Then
    - at any position, [s2] matches none of the subtitle rules and its
      classification raises the unhandled-subtitles error;
    - the evaluation of the file fails;
    - it fails with the unhandled-subtitles error when the file has a
      video stream and the streams before [s2] are classified without
      error (otherwise the earlier error is the one raised);
    - [s1] itself is always converted to srt with the default
      disposition set, whatever the rest of the file;
    - a file whose subtitle streams are all mov_text never fails with
      the unhandled-subtitles error. *)
Theorem mixed_mov_text_rejected
    (pre post : list Stream) (s1 s2 : Stream) :
  let streams := pre ++ s2 :: post in
  let sc := subtitle_codecs_of streams in
  let dc := default_subtitle_codecs_of streams in
  In s1 streams ->
  codec_type s1 = "subtitle" -> codec_name s1 = "mov_text" ->
  codec_type s2 = "subtitle" -> codec_name s2 <> "mov_text" ->
  (forall i, fragment sc dc i s2 = Err (UnhandledSubtitles sc)) /\
  (exists e, evaluate streams = Err e) /\
  (forall r,
     (exists v, In v streams /\ codec_type v = "video") ->
     classify_loop sc dc 0 pre (false, []) = Ok r ->
     evaluate streams = Err (UnhandledSubtitles sc)) /\
  (forall sc' dc' i needs_run output_streams,
     classify_stream sc' dc' i s1 (needs_run, output_streams) =
       Ok (true,
           output_streams ++
             [mkOutputStream i
                ["-c:{output_index}"; "srt";
                 "-disposition:{output_index}"; "+default"]])) /\
  (forall streams',
     (forall s, In s streams' -> codec_type s = "subtitle" ->
                codec_name s = "mov_text") ->
     forall codecs, evaluate streams' <> Err (UnhandledSubtitles codecs)).
Proof.
  intros streams sc dc Hin1 Hty1 Hcn1 Hty2 Hcn2.
  assert (Hmov : In "mov_text" sc).
  { subst sc. unfold subtitle_codecs_of. rewrite <- Hcn1. apply in_map.
    apply filter_In. split; [exact Hin1 | now apply is_subtitle_true]. }
  assert (Hs2 : forall i, fragment sc dc i s2 = Err (UnhandledSubtitles sc)).
  { intros i. now apply fragment_mixed_mov_text. }
  split; [exact Hs2|]. split; [|split; [|split]].
  - unfold evaluate, classify.
    destruct (length (filter is_video streams) =? 0)%nat;
      [now exists NoVideoStream|].
    destruct (@classify_loop_error sc dc s2 streams) with (i:=0) as [e He].
    + subst streams. apply in_or_app. right. now left.
    + intros j. eexists. apply Hs2.
    + fold sc dc. rewrite He. now exists e.
  - intros r [v [Hv Hvty]] Hpre.
    unfold evaluate. rewrite (classify_has_video streams v Hv Hvty).
    fold sc dc. subst streams.
    rewrite (@classify_loop_first_error sc dc pre s2 post
               (UnhandledSubtitles sc) 0 r Hpre); [reflexivity|].
    apply Hs2.
  - intros sc' dc' i b outs.
    rewrite classify_stream_fragment, (@fragment_subtitle sc' dc' i s1 Hty1).
    rewrite Hcn1. simpl. now rewrite orb_true_r.
  - intros streams' Hall codecs He.
    destruct (evaluate_error_source _ He) as [H|(s & j & Hs & Hf)];
      [discriminate|].
    apply fragment_unhandled_subtitles in Hf. destruct Hf as [Hty Hcn].
    apply Hcn. now apply Hall.
Qed.

(* ================================================================= *)
(** ** C8: the streams after the transform *)

Lemma fragment_reindex sc dc i j s f frag :
  fragment sc dc i s = Ok (f, frag) ->
  fragment sc dc j s =
    Ok (f, map (fun o => mkOutputStream j (options o)) frag).
Proof.
  unfold fragment, classify_stream.
  split_ifs; intros H; inversion H; subst; reflexivity.
Qed.

Lemma rendered_reindex (s : Stream) (j : nat) (frag : list OutputStream) :
  map (rendered s) (map (fun o => mkOutputStream j (options o)) frag) =
  map (rendered s) frag.
Proof. rewrite map_map. apply map_ext. intros [k opts]. reflexivity. Qed.

Lemma post_of_fragment sc dc i s f frag :
  fragment sc dc i s = Ok (f, frag) ->
  post_of sc dc s = map (rendered s) frag.
Proof.
  intros H. unfold post_of. rewrite (@fragment_reindex sc dc i 0 s f frag H).
  apply rendered_reindex.
Qed.

(** The streams after the transform, source stream by source stream. *)
Lemma post_transform_loop sc dc rest :
  forall pre f frag,
  classify_loop sc dc (length pre) rest (false, []) = Ok (f, frag) ->
  post_transform (pre ++ rest) frag = flat_map (post_of sc dc) rest.
Proof.
  induction rest as [|s rest IH]; intros pre f frag Hloop.
  - simpl in Hloop. inversion Hloop. reflexivity.
  - rewrite classify_loop_cons in Hloop.
    destruct (fragment sc dc (length pre) s) as [[f1 frag1]|e] eqn:E1;
      simpl in Hloop; [|discriminate].
    destruct (classify_loop sc dc (S (length pre)) rest (false, []))
      as [[f2 frag2]|e] eqn:E2; simpl in Hloop; [|discriminate].
    inversion Hloop; subst; clear Hloop.
    unfold post_transform. rewrite flat_map_app. cbn [flat_map]. f_equal.
    + rewrite (@post_of_fragment _ _ _ _ _ _ E1).
      pose proof (fragment_index _ _ _ _ E1) as Hidx.
      clear E1. induction Hidx as [|o frag1 Ho _ IHf]; [reflexivity|].
      cbn [flat_map map]. rewrite Ho, nth_error_app2 by lia.
      rewrite Nat.sub_diag. cbn [nth_error app]. now rewrite IHf.
    + specialize (IH (pre ++ [s]) f2 frag2).
      rewrite length_app, Nat.add_1_r, <- app_assoc in IH.
      apply IH. exact E2.
Qed.

Lemma fragment_settled sc dc i s :
  codec_type s = "subtitle" ->
  codec_name s <> "mov_text" ->
  settled sc dc ->
  fragment sc dc i s = Ok (false, [mkOutputStream i opts_copy]).
Proof.
  intros Hty Hcn (H2 & H3 & H45). rewrite (@fragment_subtitle sc dc i s Hty).
  apply String.eqb_neq in Hcn. rewrite Hcn.
  fold (rule2 sc) (rule3 sc dc) (rule4 sc dc) (rule5 sc).
  rewrite H2, H3. destruct (rule4 sc dc); [reflexivity|].
  simpl in H45. now rewrite H45.
Qed.

Lemma rendered_copy (s : Stream) (i : nat) :
  rendered s (mkOutputStream i opts_copy) = s.
Proof. destruct s. reflexivity. Qed.

(** What a subtitle stream becomes. *)
Lemma post_of_subtitle sc dc s :
  codec_type s = "subtitle" ->
  post_of sc dc s =
    if codec_name s =? "mov_text" then
      [mkStream "subtitle" "subrip" 1]
    else if rule2 sc then
      [mkStream "subtitle" "subrip" 1;
       mkStream "subtitle" (codec_name s) 0]
    else if rule3 sc dc then
      [mkStream "subtitle" (codec_name s)
                (if codec_name s =? "subrip" then 1%Z else 0%Z)]
    else if rule4 sc dc || rule5 sc then [s]
    else [].
Proof.
  intros Hty. unfold post_of. rewrite (@fragment_subtitle sc dc 0 s Hty).
  fold (rule2 sc) (rule3 sc dc) (rule4 sc dc) (rule5 sc).
  destruct (codec_name s =? "mov_text");
    [unfold rendered; rewrite Hty; reflexivity|].
  destruct (rule2 sc); [unfold rendered; rewrite Hty; reflexivity|].
  destruct (rule3 sc dc).
  { unfold rendered. rewrite Hty.
    destruct (codec_name s =? "subrip"); reflexivity. }
  destruct (rule4 sc dc); cbn [orb map].
  { now rewrite rendered_copy. }
  destruct (rule5 sc); cbn [map]; [now rewrite rendered_copy | reflexivity].
Qed.

(** What a stream of another type becomes: streams of its own type that
    the loop takes without an error and without forcing a run, whatever
    the subtitle streams of the file they are in. *)
Lemma post_of_other sc dc s :
  is_subtitle s = false ->
  Forall (fun s' =>
            codec_type s' = codec_type s /\
            forall sc' dc' k, exists frag',
              fragment sc' dc' k s' = Ok (false, frag'))
         (post_of sc dc s).
Proof.
  unfold is_subtitle. intros Hns.
  match goal with |- Forall ?P _ => set (ok := P) end.
  unfold post_of, fragment, classify_stream. rewrite Hns. subst ok.
  destruct (codec_type s =? "video") eqn:Ev.
  - destruct (str_in (codec_name s) ["vc1"; "hevc"; "vp9"; "av1"]) eqn:E1;
      [|destruct (str_in (codec_name s) ["h264"; "mjpeg"; "png"]) eqn:E2];
      cbn [app map]; repeat constructor.
    + intros sc' dc' k. eexists. unfold fragment, classify_stream.
      cbn [rendered codec_type codec_name]. rewrite Ev. reflexivity.
    + rewrite rendered_copy. intros sc' dc' k. eexists.
      unfold fragment, classify_stream. rewrite Ev, E1, E2. reflexivity.
  - destruct (codec_type s =? "audio") eqn:Ea.
    { cbn [app map]. rewrite rendered_copy. repeat constructor.
      intros sc' dc' k. eexists.
      unfold fragment, classify_stream. rewrite Ev, Ea. reflexivity. }
    destruct (codec_type s =? "attachment") eqn:Et.
    { cbn [app map]. rewrite rendered_copy. repeat constructor.
      intros sc' dc' k. eexists.
      unfold fragment, classify_stream. rewrite Ev, Ea, Hns, Et.
      reflexivity. }
    destruct (codec_type s =? "data"); [|constructor].
    destruct (codec_name s =? "bin_data"); constructor.
Qed.

(** The codec lists of a concatenation. *)
Lemma subtitle_codecs_flat_map {A} (g : A -> list Stream) (l : list A) :
  subtitle_codecs_of (flat_map g l) =
  flat_map (fun a => subtitle_codecs_of (g a)) l.
Proof.
  unfold subtitle_codecs_of. induction l as [|a l IH]; [reflexivity|].
  cbn [flat_map]. now rewrite filter_app, map_app, IH.
Qed.

Lemma default_codecs_flat_map {A} (g : A -> list Stream) (l : list A) :
  default_subtitle_codecs_of (flat_map g l) =
  flat_map (fun a => default_subtitle_codecs_of (g a)) l.
Proof.
  unfold default_subtitle_codecs_of. induction l as [|a l IH]; [reflexivity|].
  cbn [flat_map]. now rewrite !filter_app, map_app, IH.
Qed.

Lemma flat_map_filter {A B} (p : A -> bool) (h : A -> list B) (l : list A) :
  (forall a, In a l -> p a = false -> h a = []) ->
  flat_map h l = flat_map h (filter p l).
Proof.
  induction l as [|a l IH]; intros H; [reflexivity|].
  cbn [flat_map filter]. rewrite IH by (intros; apply H; auto using in_cons).
  destruct (p a) eqn:E; [reflexivity|].
  rewrite (H a (in_eq a l) E). reflexivity.
Qed.

Lemma flat_map_ext_In {A B} (g h : A -> list B) (l : list A) :
  (forall a, In a l -> g a = h a) -> flat_map g l = flat_map h l.
Proof.
  induction l as [|a l IH]; intros H; [reflexivity|].
  cbn [flat_map]. rewrite (H a (in_eq a l)), IH; [reflexivity|].
  intros; apply H; auto using in_cons.
Qed.

Lemma flat_map_singleton {A B} (g : A -> B) (l : list A) :
  flat_map (fun a => [g a]) l = map g l.
Proof. induction l as [|a l IH]; simpl; [reflexivity | now rewrite IH]. Qed.

(** A stream that is not a subtitle stream leaves no subtitle stream. *)
Lemma post_of_other_codecs sc dc s :
  is_subtitle s = false ->
  subtitle_codecs_of (post_of sc dc s) = [] /\
  default_subtitle_codecs_of (post_of sc dc s) = [].
Proof.
  intros Hns. pose proof (post_of_other sc dc s Hns) as H.
  assert (Hf : filter is_subtitle (post_of sc dc s) = []).
  { apply filter_none. eapply Forall_impl; [|exact H].
    intros s' [Hty _]. unfold is_subtitle in *. now rewrite Hty. }
  unfold subtitle_codecs_of, default_subtitle_codecs_of.
  rewrite Hf. split; reflexivity.
Qed.

(** Lists of [subrip] only. *)
Lemma all_subrip_settled (l : list string) :
  Forall (eq "subrip") l -> settled l l.
Proof.
  intros H. unfold settled, rule2, rule3, rule5.
  assert (Hne : forall c t, c <> "subrip" -> list_eqb l (c :: t) = false).
  { intros c t Hc. apply list_eqb_neq. intros ->. inversion H; congruence. }
  rewrite !Hne by discriminate. simpl. split; [reflexivity|].
  split; [reflexivity|]. apply orb_true_iff. right.
  unfold issubset. apply forallb_forall. intros x Hx.
  rewrite Forall_forall in H. now rewrite <- (H x Hx).
Qed.

Lemma codecs_singleton (subs : list Stream) (c : string) :
  map codec_name subs = [c] ->
  exists s, subs = [s] /\ codec_name s = c.
Proof.
  destruct subs as [|s [|s' subs]]; simpl; intros H; try discriminate H.
  inversion H. now exists s.
Qed.

Lemma codecs_pair (subs : list Stream) (c1 c2 : string) :
  map codec_name subs = [c1; c2] ->
  exists s1 s2, subs = [s1; s2] /\ codec_name s1 = c1 /\ codec_name s2 = c2.
Proof.
  destruct subs as [|s1 [|s2 [|s3 subs]]]; simpl; intros H;
    try discriminate H.
  inversion H. now exists s1, s2.
Qed.

Lemma rule2_codec (sc : list string) :
  rule2 sc = true -> sc = ["webvtt"] \/ sc = ["ass"].
Proof.
  unfold rule2. rewrite orb_true_iff, !list_eqb_eq. trivial.
Qed.

Lemma rule3_codecs (sc dc : list string) :
  rule3 sc dc = true ->
  sc = ["webvtt"; "subrip"] \/ sc = ["ass"; "subrip"].
Proof.
  unfold rule3. rewrite orb_true_iff, !andb_true_iff, !list_eqb_eq. tauto.
Qed.

(** The subtitle streams of an accepted file, after the transform, form a
    settled file. *)
Lemma post_subtitles_settled (subs : list Stream) :
  let sc := map codec_name subs in
  let dc := map codec_name (filter is_default subs) in
  Forall (fun s => codec_type s = "subtitle") subs ->
  (forall s, In s subs -> exists r, fragment sc dc 0 s = Ok r) ->
  settled
    (flat_map (fun s => subtitle_codecs_of (post_of sc dc s)) subs)
    (flat_map (fun s => default_subtitle_codecs_of (post_of sc dc s)) subs).
Proof.
  intros sc dc Hsub Hok. rewrite Forall_forall in Hsub.
  destruct (in_dec string_dec "mov_text" sc) as [Hmov|Hmov].
  - (* every subtitle stream is mov_text *)
    assert (Hall : forall s, In s subs ->
              post_of sc dc s = [mkStream "subtitle" "subrip" 1]).
    { intros s Hs. rewrite (@post_of_subtitle sc dc s (Hsub s Hs)).
      destruct (String.eqb_spec (codec_name s) "mov_text") as [E|E];
        [reflexivity|].
      destruct (Hok s Hs) as [r Hr].
      rewrite (@fragment_mixed_mov_text sc dc 0 s (Hsub s Hs) E Hmov) in Hr.
      discriminate Hr. }
    rewrite (flat_map_ext_In _ (fun _ => ["subrip"])),
            (flat_map_ext_In (fun s => default_subtitle_codecs_of _)
                             (fun _ => ["subrip"]));
      try (intros s Hs; rewrite (Hall s Hs); reflexivity).
    apply all_subrip_settled. rewrite flat_map_singleton.
    apply Forall_forall. intros x Hx. apply in_map_iff in Hx.
    now destruct Hx as [_ [<- _]].
  - (* no subtitle stream is mov_text *)
    assert (Hnm : forall s, In s subs -> (codec_name s =? "mov_text") = false).
    { intros s Hs. apply String.eqb_neq. intros E. apply Hmov.
      rewrite <- E. subst sc. now apply in_map. }
    destruct (rule2 sc) eqn:E2.
    { apply rule2_codec in E2. subst sc.
      assert (exists s, subs = [s] /\
                (codec_name s = "webvtt" \/ codec_name s = "ass"))
        as (s & -> & Hc).
      { destruct E2 as [E2|E2]; apply codecs_singleton in E2;
          destruct E2 as (s & -> & Hc); exists s; auto. }
      cbn [flat_map]. rewrite !app_nil_r.
      rewrite (@post_of_subtitle _ _ s (Hsub s (in_eq s []))).
      rewrite (Hnm s (in_eq s [])). cbn [map].
      destruct Hc as [Hc|Hc]; rewrite Hc; vm_compute; auto. }
    destruct (rule3 sc dc) eqn:E3.
    { pose proof (rule3_codecs _ _ E3) as Hsc. subst sc.
      assert (exists s1 s2, subs = [s1; s2] /\
                (codec_name s1 = "webvtt" \/ codec_name s1 = "ass") /\
                codec_name s2 = "subrip")
        as (s1 & s2 & Hsubs & Hc1 & Hc2).
      { destruct Hsc as [Hsc|Hsc]; apply codecs_pair in Hsc;
          destruct Hsc as (s1 & s2 & -> & Hc1 & Hc2); exists s1, s2; auto. }
      rewrite Hsubs in *. cbn [flat_map]. rewrite !app_nil_r.
      rewrite (@post_of_subtitle _ _ s1 (Hsub s1 (in_eq _ _))).
      rewrite (@post_of_subtitle _ _ s2 (Hsub s2 (in_cons _ _ _ (in_eq _ _)))).
      rewrite (Hnm s1 (in_eq _ _)), (Hnm s2 (in_cons _ _ _ (in_eq _ _))).
      rewrite E2, E3, Hc2.
      destruct Hc1 as [Hc1|Hc1]; rewrite Hc1; vm_compute; auto. }
    (* the subtitle streams are copied as they are *)
    assert (E45 : rule4 sc dc || rule5 sc = true).
    { destruct subs as [|s subs']; [reflexivity|].
      destruct (Hok s (in_eq _ _)) as [r Hr].
      rewrite (@fragment_subtitle sc dc 0 s (Hsub s (in_eq _ _))) in Hr.
      rewrite (Hnm s (in_eq _ _)) in Hr.
      fold (rule2 sc) (rule3 sc dc) (rule4 sc dc) (rule5 sc) in Hr.
      rewrite E2, E3 in Hr.
      destruct (rule4 sc dc); [reflexivity|].
      destruct (rule5 sc); [reflexivity | discriminate Hr]. }
    assert (Hall : forall s, In s subs -> post_of sc dc s = [s]).
    { intros s Hs. rewrite (@post_of_subtitle sc dc s (Hsub s Hs)).
      now rewrite (Hnm s Hs), E2, E3, E45. }
    rewrite (flat_map_ext_In _ (fun s => [codec_name s])),
            (flat_map_ext_In (fun s => default_subtitle_codecs_of _)
               (fun s => if is_default s then [codec_name s] else [])).
    + replace (flat_map (fun s => [codec_name s]) subs) with sc
        by (now rewrite flat_map_singleton).
      replace (flat_map _ subs) with dc; [now repeat split|].
      subst dc. clear. induction subs as [|s subs IH]; [reflexivity|].
      cbn [filter flat_map]. destruct (is_default s); simpl; now rewrite IH.
    + intros s Hs. rewrite (Hall s Hs).
      unfold default_subtitle_codecs_of. cbn [filter].
      unfold is_subtitle. rewrite (Hsub s Hs). cbn [String.eqb filter].
      simpl. destruct (is_default s); reflexivity.
    + intros s Hs. rewrite (Hall s Hs).
      unfold subtitle_codecs_of. cbn [filter].
      unfold is_subtitle. rewrite (Hsub s Hs). reflexivity.
Qed.

Lemma post_of_subtitle_members sc dc s s' :
  codec_type s = "subtitle" ->
  In s' (post_of sc dc s) ->
  codec_type s' = "subtitle" /\ codec_name s' <> "mov_text".
Proof.
  intros Hty. rewrite (@post_of_subtitle sc dc s Hty).
  destruct (String.eqb_spec (codec_name s) "mov_text") as [E|E].
  { intros [<-|[]]. split; [reflexivity | discriminate]. }
  destruct (rule2 sc).
  { intros [<-|[<-|[]]]; (split; [reflexivity|]);
      [discriminate | exact E]. }
  destruct (rule3 sc dc).
  { intros [<-|[]]. split; [reflexivity | exact E]. }
  destruct (rule4 sc dc || rule5 sc); [|intros []].
  intros [<-|[]]. split; [exact Hty | exact E].
Qed.

(** Every stream of an accepted file has a fragment. *)
Lemma classify_loop_all_ok sc dc streams :
  forall i r,
  classify_loop sc dc i streams (false, []) = Ok r ->
  forall s, In s streams -> exists r', fragment sc dc 0 s = Ok r'.
Proof.
  induction streams as [|x rest IH]; intros i r Hloop s Hs; [easy|].
  rewrite classify_loop_cons in Hloop.
  destruct (fragment sc dc i x) as [[f1 frag1]|e] eqn:E1; simpl in Hloop;
    [|discriminate].
  destruct (classify_loop sc dc (S i) rest (false, [])) as [r2|e] eqn:E2;
    simpl in Hloop; [|discriminate].
  destruct Hs as [<-|Hs].
  - eexists. apply (@fragment_reindex sc dc i 0 x f1 frag1 E1).
  - eapply IH; eassumption.
Qed.

(** Streams that are each taken without forcing a run make a loop that
    ends with [needs_run] false. *)
Lemma classify_loop_all_quiet sc dc streams :
  (forall s, In s streams -> forall k, exists frag,
     fragment sc dc k s = Ok (false, frag)) ->
  forall i, exists frag,
    classify_loop sc dc i streams (false, []) = Ok (false, frag).
Proof.
  induction streams as [|x rest IH]; intros H i.
  - now exists [].
  - rewrite classify_loop_cons.
    destruct (H x (in_eq _ _) i) as [frag1 E1]. rewrite E1. simpl.
    destruct (IH (fun s Hs => H s (in_cons _ _ _ Hs)) (S i)) as [frag2 E2].
    rewrite E2. simpl. now exists (frag1 ++ frag2).
Qed.

(** A video stream that is accepted leaves a video stream. *)
Lemma post_of_video sc dc s r :
  codec_type s = "video" ->
  fragment sc dc 0 s = Ok r ->
  exists s', In s' (post_of sc dc s) /\ codec_type s' = "video".
Proof.
  intros Hty. unfold post_of, fragment, classify_stream. rewrite Hty.
  change ("video" =? "video") with true. cbv beta iota.
  split_ifs; intros H; try discriminate H; cbn [app map];
    eexists; (split; [now left | exact Hty]).
Qed.

(** The streams after the transform of an accepted file make a file that
    needs no transform. *)
Lemma post_streams_quiet (streams : list Stream) r :
  classify streams = Ok r ->
  let sc := subtitle_codecs_of streams in
  let dc := default_subtitle_codecs_of streams in
  evaluate (flat_map (post_of sc dc) streams) = Ok None.
Proof.
  intros Hc sc dc. set (P := flat_map (post_of sc dc) streams).
  pose proof (classify_accepts_loop _ Hc) as Hloop. fold sc dc in Hloop.
  pose proof (classify_loop_all_ok _ _ _ _ Hloop) as Hok.
  (* a video stream remains *)
  assert (Hvideo : exists v', In v' P /\ codec_type v' = "video").
  { unfold classify in Hc.
    destruct (filter is_video streams) as [|v vs] eqn:Ev; [discriminate|].
    assert (Hv : In v (filter is_video streams)) by (rewrite Ev; now left).
    apply filter_In in Hv. destruct Hv as [Hv Hty].
    apply is_video_true in Hty. destruct (Hok v Hv) as [r' Hr'].
    destruct (post_of_video _ _ _ Hty Hr') as (v' & Hv' & Hty').
    exists v'. split; [|exact Hty'].
    apply in_flat_map. now exists v. }
  (* the subtitle streams are settled *)
  assert (Hset : settled (subtitle_codecs_of P) (default_subtitle_codecs_of P)).
  { subst P. rewrite subtitle_codecs_flat_map, default_codecs_flat_map.
    rewrite (flat_map_filter is_subtitle
               (fun s => subtitle_codecs_of (post_of sc dc s)))
      by (intros s _ Hs; apply (post_of_other_codecs sc dc s Hs)).
    rewrite (flat_map_filter is_subtitle
               (fun s => default_subtitle_codecs_of (post_of sc dc s)))
      by (intros s _ Hs; apply (post_of_other_codecs sc dc s Hs)).
    apply post_subtitles_settled.
    - apply Forall_forall. intros s Hs. apply filter_In in Hs.
      now apply is_subtitle_true.
    - intros s Hs. apply filter_In in Hs. apply Hok. tauto. }
  (* every stream is taken as it is *)
  assert (Hquiet : forall s', In s' P -> forall k, exists frag,
            fragment (subtitle_codecs_of P) (default_subtitle_codecs_of P)
                     k s' = Ok (false, frag)).
  { intros s' Hs' k. apply in_flat_map in Hs'. destruct Hs' as (s & Hs & Hs').
    destruct (is_subtitle s) eqn:Esub.
    - apply is_subtitle_true in Esub.
      destruct (@post_of_subtitle_members sc dc s s' Esub Hs') as [Hty Hcn].
      eexists. now apply fragment_settled.
    - pose proof (post_of_other sc dc s Esub) as H.
      rewrite Forall_forall in H. apply (H s' Hs'). }
  destruct Hvideo as (v' & Hv' & Hty').
  destruct (classify_loop_all_quiet _ _ _ Hquiet 0) as [frag Hfrag].
  unfold evaluate. rewrite (classify_has_video P v' Hv' Hty'), Hfrag.
  reflexivity.
Qed.

(** C8.  Whenever [evaluate] yields a plan for a stream list (the list is
    accepted and a run is needed), evaluating the streams that the plan
    produces (h264 for the encoded video streams, subrip for the
    converted subtitles, the copied streams with their default
    disposition as the plan sets it, dropped data streams gone) is
    accepted and yields no plan: no further run is needed. *)
Theorem evaluate_idempotent
    (streams : list Stream) (plan : list OutputStream) :
  evaluate streams = Ok (Some plan) ->
  evaluate (post_transform streams plan) = Ok None.
Proof.
  intros He. unfold evaluate in He.
  destruct (classify streams) as [[b emitted]|e] eqn:Hc; simpl in He;
    [|discriminate].
  destruct b; simpl in He; [|discriminate].
  inversion He; subst plan; clear He.
  pose proof (classify_accepts_loop _ Hc) as Hloop.
  destruct (classify_loop_ascending _ _ _ _ Hloop) as [_ Hsorted].
  unfold sort_by_input_index. rewrite (stable_sort_id _ Hsorted).
  pose proof (@post_transform_loop _ _ streams [] true emitted Hloop) as Hpost.
  cbn [app] in Hpost. rewrite Hpost.
  exact (post_streams_quiet _ Hc).
Qed.

(* ================================================================= *)
(** ** The theorems at concrete files *)

(** C1 on a file with one audio and one subrip stream. *)
Lemma no_video_stream_rejected_witness :
  let streams := [audio "aac"; subtitle "subrip" 1] in
  classify streams = Err NoVideoStream /\
  evaluate streams = Err NoVideoStream /\
  handle_file (sample_env streams 0) sample_file sample_world =
    (Err NoVideoStream,
     mkWorld (fs sample_world) (log sample_world ++ [EvProbe sample_file])).
Proof.
  apply (@no_video_stream_rejected
           (sample_env [audio "aac"; subtitle "subrip" 1] 0)
           sample_file sample_world).
  - reflexivity.
  - reflexivity.
  - intros s [<-|[<-|[]]]; discriminate.
Defined.

(** C2 on an hevc stream at position 0. *)
Lemma video_stream_policy_witness :
  classify_stream [] [] 0 (video "hevc") (false, []) =
    Ok (true,
        [mkOutputStream 0
           ["-c:{output_index}"; "libx264";
            "-crf:{output_index}"; "20";
            "-preset:{output_index}"; "medium";
            "-disposition:{output_index}"; "+default"]]).
Proof.
  apply (proj1 (@video_stream_policy [] [] 0 (video "hevc") false []
                  eq_refl)).
  simpl. auto.
Defined.

(** C4 on scenario C of the specification. *)
Lemma lone_subtitle_converted_and_kept_witness :
  true = true /\
  exists plan,
    evaluate [video "h264"; subtitle "webvtt" 1] = Ok (Some plan) /\
    filter (fun o => input_index o =? 1)%nat plan =
      [ mkOutputStream 1
          ["-c:{output_index}"; "srt";
           "-disposition:{output_index}"; "+default"];
        mkOutputStream 1
          ["-c:{output_index}"; "copy";
           "-disposition:{output_index}"; "-default"] ].
Proof.
  eapply (@lone_subtitle_converted_and_kept
            [video "h264"; subtitle "webvtt" 1] true _ "webvtt" 1
            (subtitle "webvtt" 1)).
  - reflexivity.
  - reflexivity.
  - left. reflexivity.
  - reflexivity.
  - reflexivity.
Defined.

(** C5 on scenario C of the specification. *)
Lemma plan_sorted_and_stable_witness :
  let plan :=
    [ mkOutputStream 0 opts_copy;
      mkOutputStream 1 opts_srt;
      mkOutputStream 1 (opts_copy_disposition "-default") ] in
  StronglySorted (fun a b => input_index a <= input_index b) plan /\
  exists emitted,
    classify [video "h264"; subtitle "webvtt" 1] = Ok (true, emitted) /\
    Permutation emitted plan /\
    forall k,
      filter (fun o => input_index o =? k)%nat plan =
      filter (fun o => input_index o =? k)%nat emitted.
Proof.
  apply (@plan_sorted_and_stable [video "h264"; subtitle "webvtt" 1]).
  reflexivity.
Defined.

(** C6 on scenario A of the specification. *)
Lemma no_transform_returns_early_witness :
  let streams := [video "h264"; audio "aac"; subtitle "subrip" 1] in
  evaluate streams = Ok None /\
  handle_file (sample_env streams 0) sample_file sample_world =
    (Ok tt,
     mkWorld (fs sample_world) (log sample_world ++ [EvProbe sample_file])).
Proof.
  eapply (@no_transform_returns_early
            (sample_env [video "h264"; audio "aac"; subtitle "subrip" 1] 0)
            sample_file sample_world).
  - reflexivity.
  - reflexivity.
Defined.

(** C7 on scenario C: the two entries of the webvtt stream share the
    source index 1 and get the output indices 1 and 2. *)
Lemma compiled_tokens_follow_plan_witness :
  build_ffmpeg_args "/media/film.mp4"
    [ mkOutputStream 0 opts_copy;
      mkOutputStream 1 opts_srt;
      mkOutputStream 1 (opts_copy_disposition "-default") ] =
  Ok [ "-i"; "/media/film.mp4";
       "-map"; "0:0"; "-c:0"; "copy";
       "-map"; "0:1"; "-c:1"; "srt"; "-disposition:1"; "+default";
       "-map"; "0:1"; "-c:2"; "copy"; "-disposition:2"; "-default" ].
Proof.
  exact (@compiled_tokens_follow_plan
           [video "h264"; subtitle "webvtt" 1]
           [ mkOutputStream 0 opts_copy;
             mkOutputStream 1 opts_srt;
             mkOutputStream 1 (opts_copy_disposition "-default") ]
           "/media/film.mp4" eq_refl).
Defined.

(** C8 on scenario C: the file becomes h264 with a default subrip and a
    webvtt subtitle stream, which rule 4 copies as they are. *)
Lemma evaluate_idempotent_witness :
  evaluate
    (post_transform [video "h264"; subtitle "webvtt" 1]
       [ mkOutputStream 0 opts_copy;
         mkOutputStream 1 opts_srt;
         mkOutputStream 1 (opts_copy_disposition "-default") ])
  = Ok None.
Proof.
  apply (@evaluate_idempotent [video "h264"; subtitle "webvtt" 1]).
  reflexivity.
Defined.


(** C10 on a file with an h264 stream, a mov_text and a subrip subtitle
    stream. *)
Lemma mixed_mov_text_rejected_witness :
  evaluate [video "h264"; subtitle "mov_text" 1; subtitle "subrip" 0] =
    Err (UnhandledSubtitles ["mov_text"; "subrip"]).
Proof.
  destruct (@mixed_mov_text_rejected
              [video "h264"; subtitle "mov_text" 1] []
              (subtitle "mov_text" 1) (subtitle "subrip" 0))
    as (_ & _ & Hfile & _).
  - simpl. auto.
  - reflexivity.
  - reflexivity.
  - reflexivity.
  - discriminate.
  - apply (Hfile (true, [mkOutputStream 0 opts_copy;
                         mkOutputStream 1 opts_srt])).
    + exists (video "h264"). simpl. auto.
    + reflexivity.
Defined.

(* ================================================================= *)
(** ** Further properties of the classification *)

(** The loop emits entries with indices below [i + length streams]. *)
Lemma classify_loop_bound sc dc streams :
  forall i f frag,
  classify_loop sc dc i streams (false, []) = Ok (f, frag) ->
  Forall (fun o => input_index o < i + length streams) frag.
Proof.
  induction streams as [|s rest IH]; intros i f frag.
  - simpl. intros H. inversion H. constructor.
  - rewrite classify_loop_cons.
    destruct (fragment sc dc i s) as [[f1 frag1]|e] eqn:E1; simpl;
      [|discriminate].
    destruct (classify_loop sc dc (S i) rest (false, []))
      as [[f2 frag2]|e] eqn:E2; simpl; [|discriminate].
    intros H. inversion H; subst; clear H. apply Forall_app. split.
    + eapply Forall_impl; [|exact (fragment_index _ _ _ _ E1)].
      simpl. intros; lia.
    + eapply Forall_impl; [|exact (IH _ _ _ E2)]. simpl. intros; lia.
Qed.

(** How many entries a stream gets, by its type. *)
Lemma fragment_entries sc dc i s f frag :
  fragment sc dc i s = Ok (f, frag) ->
  (codec_type s = "data" -> frag = []) /\
  (codec_type s = "audio" \/ codec_type s = "attachment" ->
   frag = [mkOutputStream i ["-c:{output_index}"; "copy"]]) /\
  (codec_type s <> "data" -> 1 <= length frag <= 2).
Proof.
  unfold fragment, classify_stream.
  destruct (String.eqb_spec (codec_type s) "video") as [Ev|Ev].
  { rewrite Ev. split_ifs; intros H; inversion H; subst;
      (split; [discriminate|split; [intros [?|?]; discriminate|]]);
      intros _; simpl; lia. }
  destruct (String.eqb_spec (codec_type s) "audio") as [Ea|Ea].
  { rewrite Ea. intros H; inversion H; subst.
    split; [discriminate|]. split; [reflexivity|]. simpl; lia. }
  destruct (String.eqb_spec (codec_type s) "subtitle") as [Es|Es].
  { rewrite Es. split_ifs; intros H; inversion H; subst;
      (split; [discriminate|split; [intros [?|?]; discriminate|]]);
      intros _; simpl; lia. }
  destruct (String.eqb_spec (codec_type s) "attachment") as [Et|Et].
  { rewrite Et. intros H; inversion H; subst.
    split; [discriminate|]. split; [reflexivity|]. simpl; lia. }
  destruct (String.eqb_spec (codec_type s) "data") as [Ed|Ed];
    [|discriminate].
  destruct (codec_name s =? "bin_data"); [|discriminate].
  intros H; inversion H; subst.
  split; [reflexivity|]. split; [intros [?|?]; congruence|]. congruence.
Qed.

(** X1.  In every plan that [evaluate] yields, each entry maps a stream
    of the file; a data stream has no entry, an audio or attachment
    stream has exactly one, a plain copy, and every other stream has one
    or two entries: no stream but a data stream is left out. *)
Theorem plan_covers_streams
    (streams : list Stream) (plan : list OutputStream)
    (i : nat) (s : Stream) :
  evaluate streams = Ok (Some plan) ->
  nth_error streams i = Some s ->
  Forall (fun o => input_index o < length streams) plan /\
  (codec_type s = "data" -> entries_of i plan = []) /\
  (codec_type s = "audio" \/ codec_type s = "attachment" ->
   entries_of i plan = [mkOutputStream i ["-c:{output_index}"; "copy"]]) /\
  (codec_type s <> "data" -> 1 <= length (entries_of i plan) <= 2).
Proof.
  intros He Hnth. unfold evaluate in He.
  destruct (classify streams) as [[b emitted]|e] eqn:Hc; simpl in He;
    [|discriminate].
  destruct b; simpl in He; [|discriminate].
  inversion He; subst plan; clear He.
  pose proof (classify_accepts_loop _ Hc) as Hloop.
  split.
  - eapply Permutation_Forall; [apply stable_sort_perm|].
    exact (classify_loop_bound _ _ _ _ Hloop).
  - destruct (classify_loop_nth _ _ _ 0 i Hloop Hnth)
      as (f_s & frag_s & Hf & Hfl & _).
    simpl in Hf, Hfl.
    unfold entries_of, sort_by_input_index. rewrite stable_sort_filter, Hfl.
    exact (fragment_entries _ _ _ _ Hf).
Qed.

(** Whether a stream forces a run. *)
Lemma fragment_flag sc dc i s f frag :
  fragment sc dc i s = Ok (f, frag) ->
  f = true <->
  (codec_type s = "video" /\
   In (codec_name s) ["vc1"; "hevc"; "vp9"; "av1"]) \/
  codec_type s = "data" \/
  (codec_type s = "subtitle" /\
   (codec_name s = "mov_text" \/ rule2 sc = true \/ rule3 sc dc = true)).
Proof.
  destruct (String.eqb_spec (codec_type s) "subtitle") as [Es|Es].
  { rewrite (@fragment_subtitle sc dc i s Es).
    fold (rule2 sc) (rule3 sc dc) (rule4 sc dc) (rule5 sc).
    destruct (String.eqb_spec (codec_name s) "mov_text") as [Em|Em].
    { intros H; inversion H; subst. split; [|reflexivity]. intros _.
      right; right. auto. }
    destruct (rule2 sc) eqn:E2.
    { intros H; inversion H; subst. split; [|reflexivity]. intros _.
      right; right. auto. }
    destruct (rule3 sc dc) eqn:E3.
    { intros H; inversion H; subst. split; [|reflexivity]. intros _.
      right; right. auto. }
    assert (Hno : forall b : bool, b = false ->
              b = true <->
              (codec_type s = "video" /\
               In (codec_name s) ["vc1"; "hevc"; "vp9"; "av1"]) \/
              codec_type s = "data" \/
              (codec_type s = "subtitle" /\
               (codec_name s = "mov_text" \/ false = true \/ false = true))).
    { intros b ->. split; [discriminate|].
      intros [[Hv _]|[Hd|[_ [Hm|[Hm|Hm]]]]]; congruence. }
    destruct (rule4 sc dc); [intros H; inversion H; subst; now apply Hno|].
    destruct (rule5 sc); intros H; inversion H; subst. now apply Hno. }
  unfold fragment, classify_stream.
  rewrite (proj2 (String.eqb_neq _ _) Es).
  destruct (String.eqb_spec (codec_type s) "video") as [Ev|Ev].
  { destruct (str_in (codec_name s) ["vc1"; "hevc"; "vp9"; "av1"]) eqn:E1.
    - intros H; inversion H; subst. split; [|reflexivity]. intros _.
      left. split; [exact Ev | now apply str_in_In].
    - destruct (str_in (codec_name s) ["h264"; "mjpeg"; "png"]);
        intros H; inversion H; subst. split; [discriminate|].
      apply str_in_false in E1.
      intros [[_ Hin]|[Hd|[Hs _]]]; [contradiction | congruence | congruence]. }
  destruct (String.eqb_spec (codec_type s) "audio") as [Ea|Ea].
  { intros H; inversion H; subst. split; [discriminate|].
    intros [[Hv _]|[Hd|[Hs _]]]; congruence. }
  destruct (String.eqb_spec (codec_type s) "attachment") as [Et|Et].
  { intros H; inversion H; subst. split; [discriminate|].
    intros [[Hv _]|[Hd|[Hs _]]]; congruence. }
  destruct (String.eqb_spec (codec_type s) "data") as [Ed|Ed];
    [|discriminate].
  destruct (codec_name s =? "bin_data"); intros H; inversion H; subst.
  split; auto.
Qed.

(** X2.  When the classification accepts a file, it asks for a run
    exactly when the file has a video stream in vc1, hevc, vp9 or av1, a
    data stream, a mov_text subtitle stream, or subtitle streams that
    match the webvtt/ass rules of lines 163 and 187. *)
Theorem needs_run_iff
    (streams : list Stream) (needs_run : bool)
    (output_streams : list OutputStream) :
  classify streams = Ok (needs_run, output_streams) ->
  needs_run = true <->
  exists s, In s streams /\
    ((codec_type s = "video" /\
      In (codec_name s) ["vc1"; "hevc"; "vp9"; "av1"]) \/
     codec_type s = "data" \/
     (codec_type s = "subtitle" /\
      (codec_name s = "mov_text" \/
       rule2 (subtitle_codecs_of streams) = true \/
       rule3 (subtitle_codecs_of streams)
             (default_subtitle_codecs_of streams) = true))).
Proof.
  intros Hc. apply classify_accepts_loop in Hc.
  remember (subtitle_codecs_of streams) as sc eqn:Hsc.
  remember (default_subtitle_codecs_of streams) as dc eqn:Hdc.
  clear Hsc Hdc. revert needs_run output_streams Hc. generalize 0.
  induction streams as [|x rest IH]; intros i b outs Hloop.
  - simpl in Hloop. inversion Hloop; subst. split; [discriminate|].
    intros [s [[] _]].
  - rewrite classify_loop_cons in Hloop.
    destruct (fragment sc dc i x) as [[f1 frag1]|e] eqn:E1; simpl in Hloop;
      [|discriminate].
    destruct (classify_loop sc dc (S i) rest (false, []))
      as [[f2 frag2]|e] eqn:E2; simpl in Hloop; [|discriminate].
    inversion Hloop; subst; clear Hloop.
    pose proof (fragment_flag _ _ _ _ E1) as H1.
    pose proof (IH _ _ _ E2) as H2.
    rewrite orb_true_iff, H1, H2. split.
    + intros [H|[s [Hs H]]].
      * exists x. split; [now left | exact H].
      * exists s. split; [now right | exact H].
    + intros [s [[<-|Hs] H]]; [now left|]. right. now exists s.
Qed.

(** X3.  One iteration of the loop on a stream of a type the program
    does not know raises [UnknownStreamType]; on a data stream it drops
    the stream and forces a run when the codec is bin_data, and raises
    [UnknownDataCodec] for any other codec.  [handle_file] on a file with
    a stream of either failing kind ends in an error right after the
    probe, with the file system unchanged. *)
Theorem unknown_stream_rejected
    (sc dc : list string) (i : nat) (s : Stream)
    (needs_run : bool) (output_streams : list OutputStream) :
  (~ In (codec_type s)
        ["video"; "audio"; "subtitle"; "attachment"; "data"] ->
   classify_stream sc dc i s (needs_run, output_streams) =
     Err (UnknownStreamType (codec_type s))) /\
  (codec_type s = "data" -> codec_name s = "bin_data" ->
   classify_stream sc dc i s (needs_run, output_streams) =
     Ok (true, output_streams)) /\
  (codec_type s = "data" -> codec_name s <> "bin_data" ->
   classify_stream sc dc i s (needs_run, output_streams) =
     Err (UnknownDataCodec (codec_name s))) /\
  (~ In (codec_type s)
        ["video"; "audio"; "subtitle"; "attachment"; "data"] \/
   (codec_type s = "data" /\ codec_name s <> "bin_data") ->
   forall env file w,
     probe_returncode (ffprobe env (resolve env file (fs w)) (fs w)) = 0%Z ->
     In s (probe_streams (ffprobe env (resolve env file (fs w)) (fs w))) ->
     exists e,
       handle_file env file w =
         (Err e,
          mkWorld (fs w) (log w ++ [EvProbe (resolve env file (fs w))]))).
Proof.
  assert (Htype : forall sc dc i st,
    ~ In (codec_type s)
         ["video"; "audio"; "subtitle"; "attachment"; "data"] ->
    classify_stream sc dc i s st = Err (UnknownStreamType (codec_type s))).
  { intros sc' dc' i' [b outs] H. unfold classify_stream.
    repeat match goal with
           | |- context [codec_type s =? ?t] =>
               destruct (String.eqb_spec (codec_type s) t) as [E|_];
               [exfalso; apply H; rewrite E; simpl; tauto|]
           end.
    reflexivity. }
  assert (Hdata : forall sc dc i st,
    codec_type s = "data" ->
    classify_stream sc dc i s st =
      if codec_name s =? "bin_data" then Ok (true, snd st)
      else Err (UnknownDataCodec (codec_name s))).
  { intros sc' dc' i' [b outs] H. unfold classify_stream. rewrite H.
    reflexivity. }
  split; [now apply Htype|]. split; [|split].
  - intros Hd Hc. rewrite Hdata by assumption.
    apply String.eqb_eq in Hc. now rewrite Hc.
  - intros Hd Hc. rewrite Hdata by assumption.
    apply String.eqb_neq in Hc. now rewrite Hc.
  - intros Hbad env file w Hrc Hin.
    destruct (@evaluate_error_of_stream _ s Hin) as [e He].
    { intros sc' dc' i'. unfold fragment.
      destruct Hbad as [Hbad|[Hd Hc]].
      - eexists. now apply Htype.
      - eexists. rewrite Hdata by assumption.
        apply String.eqb_neq in Hc. now rewrite Hc. }
    exists e. rewrite (handle_file_probed env file w Hrc), He. reflexivity.
Qed.

Lemma fragment_error_reindex sc dc i j s e :
  fragment sc dc i s = Err e -> fragment sc dc j s = Err e.
Proof.
  unfold fragment, classify_stream.
  split_ifs; intros H; inversion H; subst; reflexivity.
Qed.

(** Streams that are each accepted make a loop that is accepted. *)
Lemma classify_loop_all_accept sc dc streams :
  (forall s, In s streams -> exists r, fragment sc dc 0 s = Ok r) ->
  forall i, exists r, classify_loop sc dc i streams (false, []) = Ok r.
Proof.
  induction streams as [|x rest IH]; intros H i.
  - now exists (false, []).
  - rewrite classify_loop_cons.
    destruct (H x (in_eq _ _)) as [[f1 frag1] E1].
    rewrite (@fragment_reindex sc dc 0 i x f1 frag1 E1). simpl.
    destruct (IH (fun s Hs => H s (in_cons _ _ _ Hs)) (S i)) as [[f2 frag2] E2].
    rewrite E2. simpl. eauto.
Qed.

(** X4.  In a file that has a video stream, the error of the evaluation
    is the error of the first stream, in file order, that the loop
    cannot classify: the streams after it are not looked at. *)
Theorem first_unclassified_stream_decides
    (pre post : list Stream) (s : Stream) (e : Error) :
  let streams := pre ++ s :: post in
  let sc := subtitle_codecs_of streams in
  let dc := default_subtitle_codecs_of streams in
  (exists v, In v streams /\ codec_type v = "video") ->
  (forall p, In p pre -> exists r, fragment sc dc 0 p = Ok r) ->
  fragment sc dc 0 s = Err e ->
  evaluate streams = Err e.
Proof.
  intros streams sc dc [v [Hv Hty]] Hpre Hs.
  unfold evaluate. rewrite (classify_has_video streams v Hv Hty).
  fold sc dc. subst streams.
  destruct (classify_loop_all_accept _ _ _ Hpre 0) as [r Hr].
  rewrite (@classify_loop_first_error sc dc pre s post e 0 r Hr);
    [reflexivity|].
  eapply fragment_error_reindex. exact Hs.
Qed.

(** X5.  When ffprobe exits with a code other than zero, [handle_file]
    raises the probe failure with ffprobe's error output and does
    nothing else: no stream is classified, the file system is unchanged
    and the log holds the probe only. *)
Theorem probe_failure_stops (env : Env) (file : Path) (w : World) :
  probe_returncode (ffprobe env (resolve env file (fs w)) (fs w)) <> 0%Z ->
  handle_file env file w =
    (Err (ProbeFailure (probe_stderr (ffprobe env (resolve env file (fs w)) (fs w)))),
     mkWorld (fs w) (log w ++ [EvProbe (resolve env file (fs w))])).
Proof.
  intros Hrc. unfold handle_file, get_video_info, bind, emit. simpl.
  apply Z.eqb_neq in Hrc. now rewrite Hrc.
Qed.

Lemma listed_codecs_settled (sc dc : list string) :
  (forall c, In c sc -> In c ["subrip"; "hdmv_pgs_subtitle"]) ->
  settled sc dc.
Proof.
  intros Hsub.
  assert (Hne : forall c t,
            ~ In c ["subrip"; "hdmv_pgs_subtitle"] ->
            list_eqb sc (c :: t) = false).
  { intros c t Hc. apply list_eqb_neq. intros ->. apply Hc, Hsub. now left. }
  unfold settled, rule2, rule3, rule5.
  rewrite !Hne by not_listed. simpl. split; [reflexivity|].
  split; [reflexivity|]. apply orb_true_iff. right.
  unfold issubset. apply forallb_forall. intros x Hx.
  now apply str_in_In, Hsub.
Qed.

(** X8.  A file with a video stream whose video streams are all h264,
    mjpeg or png, whose subtitle streams are all subrip or
    hdmv_pgs_subtitle, and whose other streams are audio or attachment
    streams is accepted and needs no run: [handle_file] leaves it as it
    is. *)
Theorem compliant_file_left_alone (streams : list Stream) :
  (exists v, In v streams /\ codec_type v = "video") ->
  (forall s, In s streams ->
     (codec_type s = "video" /\
      In (codec_name s) ["h264"; "mjpeg"; "png"]) \/
     codec_type s = "audio" \/
     codec_type s = "attachment" \/
     (codec_type s = "subtitle" /\
      In (codec_name s) ["subrip"; "hdmv_pgs_subtitle"])) ->
  evaluate streams = Ok None /\
  forall env file w,
    probe_returncode (ffprobe env (resolve env file (fs w)) (fs w)) = 0%Z ->
    probe_streams (ffprobe env (resolve env file (fs w)) (fs w)) = streams ->
    handle_file env file w =
      (Ok tt,
       mkWorld (fs w) (log w ++ [EvProbe (resolve env file (fs w))])).
Proof.
  intros [v [Hv Hty]] Hall.
  set (sc := subtitle_codecs_of streams).
  set (dc := default_subtitle_codecs_of streams).
  assert (Hset : settled sc dc).
  { apply listed_codecs_settled. intros c Hc. subst sc.
    unfold subtitle_codecs_of in Hc. apply in_map_iff in Hc.
    destruct Hc as (s & <- & Hs). apply filter_In in Hs.
    destruct Hs as [Hs Hsub]. apply is_subtitle_true in Hsub.
    destruct (Hall s Hs) as [[H _]|[H|[H|[_ H]]]];
      first [exact H | congruence]. }
  assert (Hquiet : forall s, In s streams -> forall k, exists frag,
            fragment sc dc k s = Ok (false, frag)).
  { intros s Hs k.
    destruct (Hall s Hs) as [[Ht Hc]|[Ht|[Ht|[Ht Hc]]]].
    - eexists. unfold fragment, classify_stream. rewrite Ht.
      change ("video" =? "video") with true. cbv beta iota.
      replace (str_in (codec_name s) ["vc1"; "hevc"; "vp9"; "av1"])
        with false.
      + apply str_in_In in Hc. rewrite Hc. reflexivity.
      + symmetry. apply str_in_false. intros H. simpl in Hc, H.
        repeat destruct Hc as [Hc|Hc]; repeat destruct H as [H|H];
          congruence.
    - eexists. unfold fragment, classify_stream. rewrite Ht. reflexivity.
    - eexists. unfold fragment, classify_stream. rewrite Ht. reflexivity.
    - eexists. apply fragment_settled; [exact Ht | | exact Hset].
      intros E. rewrite E in Hc. simpl in Hc.
      destruct Hc as [Hc|[Hc|[]]]; discriminate. }
  destruct (classify_loop_all_quiet _ _ _ Hquiet 0) as [frag Hfrag].
  assert (He : evaluate streams = Ok None).
  { unfold evaluate. rewrite (classify_has_video streams v Hv Hty).
    fold sc dc. now rewrite Hfrag. }
  split; [exact He|]. intros env file w Hrc Hst.
  rewrite (handle_file_probed env file w Hrc), Hst, He. reflexivity.
Qed.

(* ================================================================= *)
(** ** Further properties of the transform step and of [handle_file] *)







(* ================================================================= *)
(** ** The walk over the command-line paths *)

Section Walk.
Variable tree : Tree.
Variable predicate : Path -> FileSystem -> bool.
Variable callback : Path -> M unit.

(** The loop over a concatenation: the second part runs from the world
    the first part left, and only if the first part went through. *)
Lemma walk_loop_app (walk_dir : list Path -> W unit) (l1 l2 : list Path) :
  forall w,
  walk_loop tree walk_dir predicate callback (l1 ++ l2) w =
    match walk_loop tree walk_dir predicate callback l1 w with
    | Some (Ok _, w') => walk_loop tree walk_dir predicate callback l2 w'
    | Some (Err e, w') => Some (Err e, w')
    | None => None
    end.
Proof.
  induction l1 as [|p l1 IH]; intros w; [reflexivity|].
  cbn [app walk_loop].
  destruct (if is_dir tree p (fs w) then _ else _) as [[[u|e] w']|];
    [apply IH | reflexivity | reflexivity].
Qed.

(** X9.  An exception of the callback ends the walk: when the paths
    [pre] have gone through and the callback raises on the next file,
    [walk_paths] raises the same exception and stops in the world the
    callback left, whatever paths follow. *)
Theorem walk_stops_at_first_error
    (fuel : nat) (pre post : list Path) (file : Path)
    (w w1 w2 : World) (e : Error) :
  walk_paths tree predicate callback (S fuel) pre w = Some (Ok tt, w1) ->
  is_dir tree file (fs w1) = false ->
  predicate file (fs w1) = true ->
  callback file w1 = (Err e, w2) ->
  walk_paths tree predicate callback (S fuel) (pre ++ file :: post) w =
    Some (Err e, w2).
Proof.
  cbn [walk_paths]. intros Hpre Hdir Hpred Hcb.
  rewrite walk_loop_app, Hpre. cbn [walk_loop].
  now rewrite Hdir, Hpred, Hcb.
Qed.
End Walk.

(** What [match_file] lets through has a candidate's name and is not a
    directory. *)
Lemma match_file_true (tree : Tree) (file : Path) (disk : FileSystem) :
  match_file tree file disk = true ->
  candidate_name file /\ is_dir tree file disk = false.
Proof.
  unfold match_file, candidate_name.
  destruct (str_in "@eaDir" (parts file)) eqn:E1; [discriminate|].
  destruct (is_dir tree file disk); [discriminate|].
  destruct (str_in "Plex Versions" (parts file)) eqn:E2; [discriminate|].
  intros H. apply str_in_false in E1, E2. apply str_in_In in H. tauto.
Qed.



Section Command.
Variable tree : Tree.
Variable env : Env.



Hypothesis dirs_fixed :
  forall p d1 d2, is_dir tree p d1 = is_dir tree p d2.

Lemma match_file_fixed (p : Path) (d1 d2 : FileSystem) :
  match_file tree p d1 = match_file tree p d2.
Proof. unfold match_file. now rewrite (dirs_fixed p d1 d2). Qed.

(** A list of files that match is handled file by file. *)
Lemma walk_paths_files (fuel : nat) (files : list Path) :
  forall w,
  Forall (fun p => match_file tree p (fs w) = true) files ->
  walk_paths tree (match_file tree) (handle_file env) (S fuel) files w =
    Some (for_each (handle_file env) files w).
Proof.
  cbn [walk_paths].
  induction files as [|file rest IH]; intros w Hall; [reflexivity|].
  inversion Hall as [|? ? Hfile Hrest]; subst.
  cbn [walk_loop for_each]. unfold bind.
  destruct (match_file_true _ _ _ Hfile) as [_ Hdir].
  rewrite Hdir, Hfile.
  destruct (handle_file env file w) as [[u|e] w1]; [|reflexivity].
  apply IH. eapply Forall_impl; [|exact Hrest].
  intros p Hp. now rewrite (match_file_fixed p (fs w1) (fs w)).
Qed.

(** X11.  When no path changes between directory and file during the
    run, two levels of recursion are all the command needs, and it is
    one pass over its paths: for a directory the matching files among
    everything below it, listed when the directory is reached, are
    handled in turn; a file is handled if it matches; the first
    exception ends the run. *)
Theorem recode_video_one_pass (fuel : nat) (paths : list Path) (w : World) :
  recode_video tree env (S (S fuel)) paths w =
    Some (recode_flat tree env paths w).
Proof.
  unfold recode_video. cbn [walk_paths]. revert w.
  induction paths as [|path rest IH]; intros w; [reflexivity|].
  cbn [walk_loop recode_flat]. unfold bind, candidates.
  destruct (is_dir tree path (fs w)).
  - change (walk_loop tree
              (walk_paths tree (match_file tree) (handle_file env) fuel)
              (match_file tree) (handle_file env)
              (filter (fun p => match_file tree p (fs w))
                      (rglob tree path (fs w))) w)
      with (walk_paths tree (match_file tree) (handle_file env) (S fuel)
              (filter (fun p => match_file tree p (fs w))
                      (rglob tree path (fs w))) w).
    rewrite walk_paths_files.
    + destruct (for_each _ _ w) as [[u|e] w1]; [apply IH | reflexivity].
    + apply Forall_forall. intros p Hp. now apply filter_In in Hp.
  - destruct (match_file tree path (fs w)).
    + cbn [for_each]. unfold bind, ret.
      destruct (handle_file env path w) as [[u|e] w1];
        [apply IH | reflexivity].
    + cbn [for_each]. unfold ret. apply IH.
Qed.
End Command.

(* ================================================================= *)
(** ** [match_file] and the output path *)

Lemma append_assoc (a b c : string) :
  ((a ++ b) ++ c)%string = (a ++ (b ++ c))%string.
Proof. induction a as [|x a IH]; simpl; [reflexivity | now rewrite IH]. Qed.

Lemma split_slash_no_slash (s cur : string) :
  no_slash s -> split_slash s cur = [(cur ++ s)%string].
Proof.
  revert cur. induction s as [|c s IH]; intros cur H.
  - simpl. now rewrite append_empty_r.
  - cbn [split_slash].
    assert (Hc : Ascii.eqb c "/" = false).
    { apply Ascii.eqb_neq. apply H. now left. }
    rewrite Hc, IH.
    + now rewrite append_assoc.
    + intros c' Hc'. apply H. now right.
Qed.

Lemma split_slash_nonempty (s cur : string) : split_slash s cur <> [].
Proof.
  revert cur. induction s as [|c s IH]; intros cur; [discriminate|].
  cbn [split_slash]. destruct (Ascii.eqb c "/"); [discriminate | apply IH].
Qed.

(** Appending a suffix without a slash changes the last component only. *)
Lemma split_slash_suffix (s suf : string) :
  no_slash suf ->
  forall cur,
  split_slash (s ++ suf) cur =
    removelast (split_slash s cur)
      ++ [(last (split_slash s cur) "" ++ suf)%string].
Proof.
  intros Hsuf. induction s as [|c s IH]; intros cur.
  - simpl. now apply split_slash_no_slash.
  - cbn [append split_slash]. destruct (Ascii.eqb c "/"); [|apply IH].
    rewrite IH. pose proof (split_slash_nonempty s "") as Hne.
    destruct (split_slash s "") as [|x l]; [contradiction|]. reflexivity.
Qed.

Lemma has_dot_append (a b : string) :
  has_dot (a ++ b) = has_dot a || has_dot b.
Proof.
  unfold has_dot. induction a as [|c a IH]; [reflexivity|].
  simpl. now rewrite IH, orb_assoc.
Qed.

(** The directories above a file: a component other than the last is a
    component whatever the suffix. *)
Lemma parts_with_suffix (file : Path) (suf x : string) :
  no_slash suf -> has_dot suf = true -> has_dot x = false ->
  no_slash (suffix file) ->
  In x (parts (with_suffix file suf)) -> In x (parts file).
Proof.
  intros Hsuf Hdot Hx Hold. unfold parts, path_str, with_suffix.
  cbn [stem suffix].
  rewrite (split_slash_suffix (stem file) Hsuf),
          (split_slash_suffix (stem file) Hold), !in_app_iff.
  intros [H|[H|[]]]; [now left|].
  exfalso. rewrite <- H, has_dot_append, Hdot, orb_true_r in Hx.
  discriminate.
Qed.

(** X12.  For a walked path that is its own resolution and that
    [match_file] lets through, the output path of [handle_file] (the
    resolved path with the suffix [.mkv]) is let through as well, unless
    a directory stands there: it is a candidate of the next walk. *)
Theorem match_file_output_path
    (tree : Tree) (env : Env) (file : Path) (disk : FileSystem) :
  resolve env file disk = file ->
  match_file tree file disk = true ->
  is_dir tree (with_suffix (resolve env file disk) ".mkv") disk = false ->
  match_file tree (with_suffix (resolve env file disk) ".mkv") disk = true.
Proof.
  intros Hres Hm Hdir. rewrite Hres in *. apply match_file_true in Hm.
  destruct Hm as [(He & Hp & Hs) _].
  assert (Hold : no_slash (suffix file)).
  { simpl in Hs. intros c Hc.
    repeat (destruct Hs as [Hs|Hs];
            [rewrite <- Hs in Hc; simpl in Hc;
             repeat (destruct Hc as [<-|Hc]; [discriminate|]);
             contradiction|]).
    contradiction. }
  assert (Hnew : no_slash ".mkv").
  { intros c Hc. simpl in Hc.
    repeat (destruct Hc as [<-|Hc]; [discriminate|]). contradiction. }
  unfold match_file. rewrite Hdir.
  replace (str_in "@eaDir" (parts (with_suffix file ".mkv"))) with false.
  - replace (str_in "Plex Versions" (parts (with_suffix file ".mkv")))
      with false; [reflexivity|].
    symmetry. apply str_in_false. intros H. apply Hp.
    now apply (@parts_with_suffix file ".mkv" "Plex Versions"
                 Hnew eq_refl eq_refl Hold).
  - symmetry. apply str_in_false. intros H. apply He.
    now apply (@parts_with_suffix file ".mkv" "@eaDir"
                 Hnew eq_refl eq_refl Hold).
Qed.

(* ================================================================= *)
(** ** Subtitle streams that are not converted *)

(** X13.  In a plan, a stream has two entries only when it is the one
    subtitle stream of the file and its codec is webvtt or ass. *)
Theorem only_lone_subtitle_doubled
    (streams : list Stream) (plan : list OutputStream)
    (i : nat) (s : Stream) :
  evaluate streams = Ok (Some plan) ->
  nth_error streams i = Some s ->
  length (entries_of i plan) = 2 ->
  codec_type s = "subtitle" /\
  subtitle_codecs_of streams = [codec_name s] /\
  (codec_name s = "webvtt" \/ codec_name s = "ass").
Proof.
  intros He Hnth Hlen. unfold evaluate in He.
  destruct (classify streams) as [[b emitted]|e] eqn:Hc; simpl in He;
    [|discriminate].
  destruct b; simpl in He; [|discriminate].
  inversion He; subst plan; clear He.
  pose proof (classify_accepts_loop _ Hc) as Hloop.
  destruct (classify_loop_nth _ _ _ 0 i Hloop Hnth)
    as (f_s & frag_s & Hf & Hfl & _).
  simpl in Hf, Hfl.
  unfold entries_of, sort_by_input_index in Hlen.
  rewrite stable_sort_filter, Hfl in Hlen. clear Hfl.
  destruct (String.eqb_spec (codec_type s) "subtitle") as [Es|Es].
  - split; [exact Es|].
    pose proof (subtitle_codec_listed _ _ Hnth Es) as Hin.
    rewrite (@fragment_subtitle _ _ i s Es) in Hf.
    destruct (codec_name s =? "mov_text");
      [inversion Hf; subst; discriminate Hlen|].
    match type of Hf with
    | (if ?c then _ else _) = _ => destruct c eqn:E2
    end.
    + apply orb_true_iff in E2. rewrite !list_eqb_eq in E2.
      destruct E2 as [E2|E2]; rewrite E2 in Hin |- *;
        destruct Hin as [<-|[]]; auto.
    + revert Hf. split_ifs; intros Hf; inversion Hf; subst;
        discriminate Hlen.
  - exfalso. unfold fragment, classify_stream in Hf.
    rewrite (proj2 (String.eqb_neq _ _) Es) in Hf.
    revert Hf. split_ifs; intros Hf; inversion Hf; subst;
      discriminate Hlen.
Qed.

(** X14.  In a plan of a file whose subtitle codecs match neither
    webvtt/ass rule, every subtitle stream other than mov_text has one
    entry, a plain copy: its default disposition is left as it is. *)
Theorem untouched_subtitle_copied
    (streams : list Stream) (plan : list OutputStream)
    (i : nat) (s : Stream) :
  evaluate streams = Ok (Some plan) ->
  nth_error streams i = Some s ->
  codec_type s = "subtitle" ->
  codec_name s <> "mov_text" ->
  rule2 (subtitle_codecs_of streams) = false ->
  rule3 (subtitle_codecs_of streams)
        (default_subtitle_codecs_of streams) = false ->
  entries_of i plan = [mkOutputStream i ["-c:{output_index}"; "copy"]].
Proof.
  intros He Hnth Es Hm H2 H3. unfold evaluate in He.
  destruct (classify streams) as [[b emitted]|e] eqn:Hc; simpl in He;
    [|discriminate].
  destruct b; simpl in He; [|discriminate].
  inversion He; subst plan; clear He.
  pose proof (classify_accepts_loop _ Hc) as Hloop.
  destruct (classify_loop_nth _ _ _ 0 i Hloop Hnth)
    as (f_s & frag_s & Hf & Hfl & _).
  simpl in Hf, Hfl.
  unfold entries_of, sort_by_input_index.
  rewrite stable_sort_filter, Hfl. clear Hfl.
  rewrite (@fragment_subtitle _ _ i s Es) in Hf.
  fold (rule2 (subtitle_codecs_of streams)) in Hf.
  fold (rule3 (subtitle_codecs_of streams)
              (default_subtitle_codecs_of streams)) in Hf.
  apply String.eqb_neq in Hm. rewrite Hm, H2, H3 in Hf.
  revert Hf. split_ifs; intros Hf; inversion Hf; reflexivity.
Qed.

(* ================================================================= *)
(** ** The further properties at concrete files *)

(** X1 on an hevc file with an audio and a dropped data stream. *)
Lemma plan_covers_streams_witness :
  entries_of 1 [ mkOutputStream 0 opts_libx264;
                 mkOutputStream 1 opts_copy ] =
    [mkOutputStream 1 ["-c:{output_index}"; "copy"]].
Proof.
  apply (proj1 (proj2 (proj2
    (@plan_covers_streams
       [video "hevc"; audio "aac"; mkStream "data" "bin_data" 0]
       [mkOutputStream 0 opts_libx264; mkOutputStream 1 opts_copy]
       1 (audio "aac") eq_refl eq_refl)))).
  left. reflexivity.
Defined.

(** X2 on an hevc file. *)
Lemma needs_run_iff_witness :
  exists s, In s [video "hevc"; audio "aac"] /\
    ((codec_type s = "video" /\
      In (codec_name s) ["vc1"; "hevc"; "vp9"; "av1"]) \/
     codec_type s = "data" \/
     (codec_type s = "subtitle" /\
      (codec_name s = "mov_text" \/
       rule2 (subtitle_codecs_of [video "hevc"; audio "aac"]) = true \/
       rule3 (subtitle_codecs_of [video "hevc"; audio "aac"])
             (default_subtitle_codecs_of [video "hevc"; audio "aac"])
         = true))).
Proof.
  apply (proj1 (@needs_run_iff [video "hevc"; audio "aac"] true
                  [mkOutputStream 0 opts_libx264; mkOutputStream 1 opts_copy]
                  eq_refl)).
  reflexivity.
Defined.

(** X4 on scenario E of the specification with a stream behind the data
    stream. *)
Lemma first_unclassified_stream_decides_witness :
  evaluate [video "av1"; mkStream "data" "other" 0; subtitle "dvd" 0] =
    Err (UnknownDataCodec "other").
Proof.
  apply (@first_unclassified_stream_decides
           [video "av1"] [subtitle "dvd" 0] (mkStream "data" "other" 0)).
  - exists (video "av1"). simpl. auto.
  - intros p [<-|[]]. eexists. reflexivity.
  - reflexivity.
Defined.

(** X5 with an ffprobe that exits with 1. *)
Lemma probe_failure_stops_witness :
  handle_file failing_probe_env sample_file sample_world =
    (Err (ProbeFailure "moov atom not found"),
     mkWorld (fs sample_world) (log sample_world ++ [EvProbe sample_file])).
Proof.
  apply (@probe_failure_stops failing_probe_env sample_file sample_world).
  discriminate.
Defined.



(** X8 on a file with h264 video, audio and two subtitle streams. *)
Lemma compliant_file_left_alone_witness :
  evaluate [ video "h264"; audio "aac"; subtitle "subrip" 1;
             subtitle "hdmv_pgs_subtitle" 0 ] = Ok None.
Proof.
  apply (@compliant_file_left_alone
           [ video "h264"; audio "aac"; subtitle "subrip" 1;
             subtitle "hdmv_pgs_subtitle" 0 ]).
  - exists (video "h264"). simpl. auto.
  - intros s [<-|[<-|[<-|[<-|[]]]]]; simpl; auto 10.
Defined.

(** X9 on two files of which the first has no video stream: the second
    is never probed. *)
Lemma walk_stops_at_first_error_witness :
  walk_paths sample_tree (match_file sample_tree)
    (handle_file (sample_env [audio "aac"] 0)) 1
    ([] ++ sample_file :: [mkPath "/media/second" ".mkv"]) sample_world =
  Some (Err NoVideoStream,
        mkWorld (fs sample_world) [EvProbe sample_file]).
Proof.
  apply (@walk_stops_at_first_error sample_tree (match_file sample_tree)
           (handle_file (sample_env [audio "aac"] 0)) 0 []
           [mkPath "/media/second" ".mkv"] sample_file
           sample_world sample_world).
  - reflexivity.
  - reflexivity.
  - reflexivity.
  - reflexivity.
Defined.


(** X11 on the sample directory. *)
Lemma recode_video_one_pass_witness :
  recode_video sample_tree (sample_env [video "h264"] 0) 2 [sample_dir]
    sample_world =
  Some (recode_flat sample_tree (sample_env [video "h264"] 0) [sample_dir]
          sample_world).
Proof.
  apply (@recode_video_one_pass sample_tree (sample_env [video "h264"] 0)).
  intros p d1 d2. reflexivity.
Defined.

(** X12 on the sample file. *)
Lemma match_file_output_path_witness :
  match_file sample_tree
    (with_suffix
       (resolve (sample_env [] 0) sample_file (fs sample_world)) ".mkv")
    (fs sample_world)
    = true.
Proof.
  apply (@match_file_output_path sample_tree (sample_env [] 0) sample_file
           (fs sample_world)).
  - reflexivity.
  - reflexivity.
  - reflexivity.
Defined.

(** X13 on scenario C of the specification. *)
Lemma only_lone_subtitle_doubled_witness :
  codec_type (subtitle "webvtt" 1) = "subtitle" /\
  subtitle_codecs_of [video "h264"; subtitle "webvtt" 1]
    = [codec_name (subtitle "webvtt" 1)] /\
  (codec_name (subtitle "webvtt" 1) = "webvtt" \/
   codec_name (subtitle "webvtt" 1) = "ass").
Proof.
  apply (@only_lone_subtitle_doubled
           [video "h264"; subtitle "webvtt" 1]
           [ mkOutputStream 0 opts_copy;
             mkOutputStream 1 opts_srt;
             mkOutputStream 1 (opts_copy_disposition "-default") ]
           1 (subtitle "webvtt" 1)).
  - reflexivity.
  - reflexivity.
  - reflexivity.
Defined.

(** X14 on an hevc file with a subrip and a PGS subtitle stream. *)
Lemma untouched_subtitle_copied_witness :
  entries_of 1
    [ mkOutputStream 0 opts_libx264;
      mkOutputStream 1 opts_copy;
      mkOutputStream 2 opts_copy ] =
  [mkOutputStream 1 ["-c:{output_index}"; "copy"]].
Proof.
  apply (@untouched_subtitle_copied
           [ video "hevc"; subtitle "subrip" 1;
             subtitle "hdmv_pgs_subtitle" 0 ]
           [ mkOutputStream 0 opts_libx264;
             mkOutputStream 1 opts_copy;
             mkOutputStream 2 opts_copy ]
           1 (subtitle "subrip" 1)).
  - reflexivity.
  - reflexivity.
  - reflexivity.
  - discriminate.
  - reflexivity.
  - reflexivity.
Defined.
